(** * sw.js: the CricStreamZone service worker

    A shallow embedding of the event handlers of [sw.js] (install, activate,
    fetch, push, notificationclick) and the properties of the cache policy and
    of the notification life cycle.

    The handlers are written in a small state-and-error monad: the state is
    the cache storage together with the trace of the calls the worker made to
    its runtime, and a rejected promise is an error.  The browser primitives
    the worker calls (cache storage, network fetch, clients, notifications)
    are given by their documented behaviour; the program text that is embedded
    is the text of the handlers. *)

From stdpp Require Import gmap strings list fin_maps pretty.

Local Open Scope string_scope.
Local Open Scope Z_scope.

#[local] Set Warnings "-clear-no-such-hyp".

(** ** JavaScript values

    The values a push payload decodes to and the values the handlers build
    from them.  The numbers are those an integer literal denotes: [JNum z]
    is the double nearest to [z], as decoding the literal [z] gives it;
    numbers with a fractional part are not part of the embedding. *)

#[warnings="-register-all"]
Inductive JsVal :=
  | JUndefined
  | JNull
  | JBool (b : bool)
  | JNum (z : Z)
  | JStr (s : string)
  | JArr (l : list JsVal)
  | JObj (o : gmap string JsVal).

(** [ToBoolean]: what [v || w] and [if (v)] test. *)
Definition truthy (v : JsVal) : bool :=
  match v with
  | JUndefined | JNull => false
  | JBool b => b
  | JNum z => negb (z =? 0)
  | JStr s => negb (String.eqb s "")
  | JArr _ | JObj _ => true
  end.

(** [a || b] *)
Definition js_or (a b : JsVal) : JsVal := if truthy a then a else b.

(** [o.k] and [o?.k] for a key that no prototype defines: the own property of
    an object, [undefined] on everything else ([o?.k] on [null] and
    [undefined] included; plain [o.k] is only used on objects). *)
Definition get_prop (v : JsVal) (k : string) : JsVal :=
  match v with
  | JObj o => default JUndefined (o !! k)
  | _ => JUndefined
  end.

(** The own enumerable properties that [{...v}] copies: the properties of an
    object, the elements of an array and the characters of a string (here
    the bytes of the string) under their indices, nothing for the rest. *)
Definition indexed {A} (l : list A) : list (string * A) :=
  imap (λ i x, (pretty (Z.of_nat i), x)) l.

Fixpoint chars (s : string) : list JsVal :=
  match s with
  | EmptyString => []
  | String c s' => JStr (String c EmptyString) :: chars s'
  end.

Definition own_props (v : JsVal) : gmap string JsVal :=
  match v with
  | JObj o => o
  | JArr l => list_to_map (indexed l)
  | JStr s => list_to_map (indexed (chars s))
  | _ => ∅
  end.

(** [{...a, ...b}]: the properties of [b] win. *)
Definition spread2 (a b : JsVal) : JsVal := JObj (own_props b ∪ own_props a).

(** *** [Number::toString] on the integers

    A number is a double: the literal is first rounded to the nearest double
    (ties to the even mantissa, infinity beyond the largest one), and the
    double is printed with the fewest significant digits that read back as
    itself, in positional notation up to 21 digits and in exponent notation
    beyond. *)

Definition nearest_double (n : Z) : option Z :=
  let e := Z.log2 n - 52 in
  if e <=? 0 then Some n
  else
    let q := Z.shiftr n e in
    let r := n - Z.shiftl q e in
    let half := 2 ^ (e - 1) in
    let q' := if (half <? r) || ((r =? half) && Z.odd q) then q + 1 else q in
    let x := Z.shiftl q' e in
    if 2 ^ 1024 <=? x then None else Some x.

Definition decimal_digits (n : Z) : Z := Z.of_nat (String.length (pretty n)).

(** The decimal of fewest significant digits that reads back as [x], the
    closest to [x] when two of them do; [k] digits are tried after [k - 1]. *)
Fixpoint shortest_from (x d : Z) (k : nat) (fuel : nat) : Z :=
  match fuel with
  | O => x
  | S fuel' =>
      let step := 10 ^ (d - Z.of_nat k) in
      let c1 := x / step * step in
      let c2 := c1 + step in
      let ok c := bool_decide (nearest_double c = Some x) in
      if ok c1 && ok c2 then
        (if x - c1 <? c2 - x then c1
         else if c2 - x <? x - c1 then c2
         else if Z.even (c1 / step) then c1 else c2)
      else if ok c1 then c1
      else if ok c2 then c2
      else shortest_from x d (S k) fuel'
  end.

Definition shortest_decimal (x : Z) : Z :=
  let d := decimal_digits x in
  shortest_from x d 1 (Z.to_nat d).

Fixpoint strip_zeros (fuel : nat) (n : Z) : Z :=
  match fuel with
  | O => n
  | S fuel' =>
      if (n mod 10 =? 0) && negb (n =? 0) then strip_zeros fuel' (n / 10) else n
  end.

Definition render_decimal (c : Z) : string :=
  let n := decimal_digits c in
  if n <=? 21 then pretty c
  else
    let s := pretty (strip_zeros (Z.to_nat n) c) in
    match s with
    | String a rest =>
        String a (match rest with EmptyString => "" | _ => "." ++ rest end)
        ++ "e+" ++ pretty (n - 1)
    | EmptyString => ""
    end.

Definition number_to_string (z : Z) : string :=
  if z =? 0 then "0"
  else
    (if z <? 0 then "-" else "") ++
    match nearest_double (Z.abs z) with
    | Some x => render_decimal (shortest_decimal x)
    | None => "Infinity"
    end.

(** String conversion as string concatenation performs it.  [None] is the
    [TypeError] raised for an object that cannot be converted: a decoded
    object whose own [toString] property shadows the inherited method (a
    decoded value is never callable). *)
Fixpoint to_string (v : JsVal) : option string :=
  match v with
  | JUndefined => Some "undefined"
  | JNull => Some "null"
  | JBool true => Some "true"
  | JBool false => Some "false"
  | JNum z => Some (number_to_string z)
  | JStr s => Some s
  | JArr l =>
      (fix join (l : list JsVal) : option string :=
         match l with
         | [] => Some ""
         | x :: rest =>
             let elem :=
               match x with
               | JUndefined | JNull => Some ""
               | _ => to_string x
               end in
             match rest with
             | [] => elem
             | _ :: _ =>
                 match elem, join rest with
                 | Some s, Some r => Some (s ++ "," ++ r)
                 | _, _ => None
                 end
             end
         end) l
  | JObj o =>
      match o !! "toString" with
      | Some _ => None
      | None => Some "[object Object]"
      end
  end.

(** [s.includes(needle)] *)
Fixpoint includes (s needle : string) : bool :=
  if String.prefix needle s then true
  else match s with
       | EmptyString => false
       | String _ s' => includes s' needle
       end.

(** ** Requests, responses and the cache storage *)

(** [Response.type] *)
Inductive ResponseType :=
  | basic | cors | default_type | error | opaque | opaqueredirect.

Global Instance ResponseType_eq_dec : EqDecision ResponseType.
Proof. solve_decision. Defined.

(** A response: [status], [type], the body, and [redirected] (whether the
    fetch followed a redirect to obtain it).  The responses carry no [Vary]
    header, so that a cache identifies them by the request's URL alone. *)
Record Response := {
  resp_status : Z;
  resp_type : ResponseType;
  resp_body : string;
  resp_redirected : bool
}.

Global Instance Response_eq_dec : EqDecision Response.
Proof. solve_decision. Defined.

(** A request as the fetch handler reads it: its [url], and the [hostname] and
    [pathname] of [new URL(request.url)].  The handler never reads the method;
    the requests are the GET requests, whose identity in a cache is the URL. *)
Record Request := {
  req_url : string;
  req_hostname : string;
  req_pathname : string
}.

(** The cache storage: the named buckets in creation order, each a map from
    request identity to the stored response. *)
Abbreviation Cache := (gmap string Response).
Abbreviation CacheStorage := (list (string * gmap string Response)).

Definition JsError := string.

Inductive outcome (A : Type) :=
  | Fulfilled (a : A)
  | Rejected (e : JsError).
Arguments Fulfilled {A} a.
Arguments Rejected {A} e.

(** What a window client is to the worker. *)
Record WindowClient := {
  wc_id : nat;
  wc_url : string;
  wc_controlled : bool
}.

(** The calls the worker makes to its runtime, in the order it makes them. *)
Inductive Effect :=
  | ELog (msg detail : string)
  | EError (msg detail : string)
  | ENetFetch (url : string)
  | ESkipWaiting
  | EClientsClaim
  | EShowNotification (title options : JsVal)
  | ENotificationClose
  | EFocus (client : nat)
  | EPostMessage (client : nat) (message : JsVal)
  | EOpenWindow (url : JsVal)
  | ESetTimeout (delay : Z) (title options : JsVal).

Record World := {
  w_caches : CacheStorage;
  w_trace : list Effect
}.

(** What the worker's surroundings answer: the network ([None]: the fetch
    rejects), the open windows of the origin, the readings of [Date.now()] in
    the order they are taken, the value of [Math.random()], and how the
    promises of [showNotification], [focus] and [openWindow] settle. *)
Record Runtime := {
  rt_origin : string;
  rt_network : string → option Response;
  rt_windows : list WindowClient;
  rt_now : nat → Z;
  rt_random : JsVal;
  rt_show : JsVal → JsVal → outcome unit;
  rt_focus : nat → outcome unit;
  rt_open : JsVal → outcome unit
}.

(** ** Promises as a state-and-error monad *)

Definition Async (A : Type) : Type := World → outcome A * World.

Global Instance Async_ret : MRet Async := λ A a w, (Fulfilled a, w).

Global Instance Async_bind : MBind Async := λ A B f m w,
  match m w with
  | (Fulfilled a, w') => f a w'
  | (Rejected e, w') => (Rejected e, w')
  end.

(** [p.catch(h)] *)
Definition catch {A} (m : Async A) (h : JsError → Async A) : Async A := λ w,
  match m w with
  | (Fulfilled a, w') => (Fulfilled a, w')
  | (Rejected e, w') => h e w'
  end.

Definition reject {A} (e : JsError) : Async A := λ w, (Rejected e, w).

(** A promise of the runtime that settles the way the runtime decides. *)
Definition settle {A} (o : outcome A) : Async A := λ w, (o, w).

(** A promise the handler starts and does not wait for: its jobs run, its
    outcome is dropped. *)
Definition detached {A} (m : Async A) : Async unit := λ w,
  (Fulfilled tt, (m w).2).

Definition emit (e : Effect) : Async unit := λ w,
  (Fulfilled tt, {| w_caches := w_caches w; w_trace := w_trace w ++ [e] |}).

Definition get_caches : Async CacheStorage := λ w, (Fulfilled (w_caches w), w).

Definition set_caches (cs : CacheStorage) : Async unit := λ w,
  (Fulfilled tt, {| w_caches := cs; w_trace := w_trace w |}).

Definition console_log (msg detail : string) : Async unit := emit (ELog msg detail).
Definition console_error (msg detail : string) : Async unit := emit (EError msg detail).

(** Running a handler on a cache storage, with an empty trace. *)
Definition run {A} (m : Async A) (cs : CacheStorage) : outcome A * World :=
  m {| w_caches := cs; w_trace := [] |}.

Fixpoint for_each {A} (f : A → Async unit) (l : list A) : Async unit :=
  match l with
  | [] => mret tt
  | x :: rest => f x;; for_each f rest
  end.

(** ** The runtime's primitives *)

(** The bucket of a given name. *)
Fixpoint bucket (name : string) (cs : CacheStorage) : option Cache :=
  match cs with
  | [] => None
  | (n, c) :: rest => if decide (n = name) then Some c else bucket name rest
  end.

(** [CacheStorage.match]: the buckets are consulted in creation order and the
    first stored response for the request wins. *)
Fixpoint storage_match (key : string) (cs : CacheStorage) : option Response :=
  match cs with
  | [] => None
  | (_, c) :: rest =>
      match c !! key with
      | Some r => Some r
      | None => storage_match key rest
      end
  end.

Fixpoint storage_put (name key : string) (r : Response) (cs : CacheStorage)
  : CacheStorage :=
  match cs with
  | [] => []
  | (n, c) :: rest =>
      if decide (n = name) then (n, <[key := r]> c) :: rest
      else (n, c) :: storage_put name key r rest
  end.

(** [caches.open(name)]: creates the bucket when there is none of that name;
    the result stands for the opened bucket. *)
Definition caches_open (name : string) : Async string :=
  cs ← get_caches;
  match bucket name cs with
  | Some _ => mret name
  | None => set_caches (cs ++ [(name, ∅)]);; mret name
  end.

(** [caches.keys()] *)
Definition caches_keys : Async (list string) :=
  cs ← get_caches; mret (cs.*1).

(** [caches.delete(name)] *)
Definition caches_delete (name : string) : Async unit :=
  cs ← get_caches;
  set_caches (filter (λ p, p.1 ≠ name) cs).

(** [caches.match(request)]; [None] is [undefined]. *)
Definition caches_match (request : Request) : Async (option Response) :=
  cs ← get_caches; mret (storage_match (req_url request) cs).

(** [cache.put(request, response)] on an opened bucket, for a GET request: a
    partial response (status 206) is refused with a [TypeError] and nothing
    is stored; any other response replaces what the bucket held for the
    request. *)
Definition cache_put (cache : string) (key : string) (response : Response)
  : Async unit :=
  if decide (resp_status response = 206) then
    reject "TypeError: Failed to execute 'put' on 'Cache': Partial response (status code 206) is unsupported"
  else
    cs ← get_caches; set_caches (storage_put cache key response cs).

Section Handlers.

Variable rt : Runtime.

(** [fetch(url)]: rejects when the network gives no response; a response of
    any status fulfils it. *)
Definition fetch (url : string) : Async Response :=
  emit (ENetFetch url);;
  match rt_network rt url with
  | Some r => mret r
  | None => reject "TypeError: Failed to fetch"
  end.

(** The URL a manifest entry names, against the worker's origin. *)
Definition absolute (url : string) : string :=
  if String.prefix "/" url then rt_origin rt ++ url else url.

(** The statuses [addAll] takes: the ok statuses, 200 to 299, except the
    partial content 206. *)
Definition ok_status (r : Response) : bool :=
  (200 <=? resp_status r) && (resp_status r <=? 299)
  && negb (resp_status r =? 206).

(** The responses of a list of URLs, when every one of them is fetched with
    such a status. *)
Fixpoint all_fetched (urls : list string) : option (list (string * Response)) :=
  match urls with
  | [] => Some []
  | u :: rest =>
      match rt_network rt u with
      | Some r =>
          if ok_status r then
            match all_fetched rest with
            | Some rs => Some ((u, r) :: rs)
            | None => None
            end
          else None
      | None => None
      end
  end.

(** [cache.addAll(urls)]: every URL is requested; the responses are stored
    only when all of them arrived with an ok status other than 206, otherwise
    the promise rejects and nothing is stored. *)
Definition cache_addAll (cache : string) (urls : list string) : Async unit :=
  for_each (λ u, emit (ENetFetch (absolute u))) urls;;
  match all_fetched (absolute <$> urls) with
  | Some rs => for_each (λ p, cache_put cache p.1 p.2) rs
  | None => reject "TypeError: Failed to execute 'addAll' on 'Cache': Request failed"
  end.

Definition skipWaiting : Async unit := emit ESkipWaiting.
Definition clients_claim : Async unit := emit EClientsClaim.

(** ** The worker *)

Definition CACHE_NAME : string := "cricstreamzone-v1.0.6".

Definition urlsToCache : list string := [
  "/";
  "/index.html";
  "/manifest.json";
  "https://cdnjs.cloudflare.com/ajax/libs/bodymovin/5.7.4/lottie.min.js";
  "https://i.postimg.cc/3rPWWckN/icon-192.png";
  "https://i.postimg.cc/BvWg87Rd/videocam-24dp-E3-E3-E3-FILL0-wght400-GRAD0-opsz24.png";
  "https://i.postimg.cc/K8JDvvxs/live-tv-24dp-E3-E3-E3-FILL0-wght400-GRAD0-opsz24.png";
  "https://i.postimg.cc/YC472jwd/radio-24dp-E3-E3-E3-FILL0-wght400-GRAD0-opsz24.png"
].

(** *** install

    The value is the promise handed to [event.waitUntil]: the install
    succeeds when it fulfils and fails when it rejects. *)
Definition install_handler : Async unit :=
  console_log "🔧 Service Worker installing..." "";;
  catch
    (cache ← caches_open CACHE_NAME;
     console_log "📦 Caching app shell" "";;
     cache_addAll cache urlsToCache;;
     console_log "✅ Service Worker installed successfully" "";;
     skipWaiting)
    (λ error, console_error "❌ Service Worker installation failed:" error).

(** Whether the runtime takes the event as succeeded: the promise given to
    [waitUntil] fulfilled. *)
Definition event_succeeded {A} (o : outcome A) : bool :=
  match o with
  | Fulfilled _ => true
  | Rejected _ => false
  end.

(** *** activate *)

(** The callback mapped over the bucket names. *)
Definition delete_old (cacheName : string) : Async unit :=
  if decide (cacheName ≠ CACHE_NAME) then
    console_log "🗑️ Deleting old cache:" cacheName;;
    caches_delete cacheName
  else mret tt.

Definition activate_handler : Async unit :=
  console_log "🚀 Service Worker activating..." "";;
  cacheNames ← caches_keys;
  for_each delete_old cacheNames;;
  console_log "✅ Service Worker activated" "";;
  clients_claim.

(** *** fetch *)

(** The test of the handler's [if]: network-first for API calls. *)
Definition is_dynamic (request : Request) : bool :=
  includes (req_hostname request) "script.google.com"
  || includes (req_pathname request) "api".

(** The test [!response || response.status !== 200 || response.type !== 'basic']
    on a response the fetch resolved with (which is never absent). *)
Definition not_cacheable (response : Response) : bool :=
  negb (resp_status response =? 200) || negb (bool_decide (resp_type response = basic)).

(** The value is the promise handed to [event.respondWith]; the cache storage
    of the resulting world is the one left when the puts the handler started
    have run. *)
Definition fetch_handler (request : Request) : Async (option Response) :=
  if is_dynamic request then
    catch
      (response ← fetch (req_url request);
       let responseClone := response in
       detached (cache ← caches_open CACHE_NAME;
                 cache_put cache (req_url request) responseClone);;
       mret (Some response))
      (λ _, caches_match request)
  else
    response ← caches_match request;
    match response with
    | Some response => mret (Some response)
    | None =>
        response ← fetch (req_url request);
        if not_cacheable response then mret (Some response)
        else
          let responseToCache := response in
          detached (cache ← caches_open CACHE_NAME;
                    cache_put cache (req_url request) responseToCache);;
          mret (Some response)
    end.

(** What the requester gets from [respondWith]: the response the promise
    fulfilled with, and a network error when it rejected or fulfilled with
    something that is no response. *)
Inductive Reply :=
  | Served (r : Response)
  | NetworkError.

Definition respondWith (o : outcome (option Response)) : Reply :=
  match o with
  | Fulfilled (Some r) => Served r
  | _ => NetworkError
  end.

(** *** push *)

(** [event.data] of a push event that carries a payload: its [text()] and what
    [json()] gives, [None] when decoding the text throws. *)
Record PushMessageData := {
  pmd_text : string;
  pmd_json : option JsVal
}.

Definition icon_192 : string := "https://i.postimg.cc/3rPWWckN/icon-192.png".

(** The initial value of [notificationData]. *)
Definition default_notification : gmap string JsVal :=
  list_to_map [
    ("title", JStr "CricStreamZone");
    ("body", JStr "New cricket match update!");
    ("icon", JStr icon_192);
    ("badge", JStr icon_192)
  ].

(** [notificationData] after the [if (event.data)] block; the argument is
    [None] for a push without payload. *)
Definition notificationData_of (data : option PushMessageData) : JsVal :=
  match data with
  | None => JObj default_notification
  | Some d =>
      match pmd_json d with
      | Some pushData => spread2 (JObj default_notification) pushData
      | None => JObj (<["body" := JStr (pmd_text d)]> default_notification)
      end
  end.

Definition push_actions : JsVal :=
  JArr [
    JObj (list_to_map [
      ("action", JStr "watch");
      ("title", JStr "📺 Watch Live");
      ("icon", JStr "https://i.postimg.cc/BvWg87Rd/videocam-24dp-E3-E3-E3-FILL0-wght400-GRAD0-opsz24.png")]);
    JObj (list_to_map [
      ("action", JStr "remind");
      ("title", JStr "⏰ Remind Me");
      ("icon", JStr "https://i.postimg.cc/YC472jwd/radio-24dp-E3-E3-E3-FILL0-wght400-GRAD0-opsz24.png")]);
    JObj (list_to_map [
      ("action", JStr "dismiss");
      ("title", JStr "❌ Dismiss");
      ("icon", JStr "https://i.postimg.cc/K8JDvvxs/live-tv-24dp-E3-E3-E3-FILL0-wght400-GRAD0-opsz24.png")])
  ].

(** The [tag] expression ['cricket-match-' + (notificationData.matchId || 'general')];
    [None] when the concatenation throws. *)
Definition push_tag (notificationData : JsVal) : option string :=
  s ← to_string (js_or (get_prop notificationData "matchId") (JStr "general"));
  Some ("cricket-match-" ++ s).

(** The [options] literal, given its [tag]. *)
Definition push_options (notificationData : JsVal) (tag : string) : gmap string JsVal :=
  list_to_map [
    ("body", get_prop notificationData "body");
    ("icon", get_prop notificationData "icon");
    ("badge", get_prop notificationData "badge");
    ("vibrate", JArr [JNum 200; JNum 100; JNum 200; JNum 100; JNum 200]);
    ("data", JObj (list_to_map [
       ("dateOfArrival", JNum (rt_now rt 0));
       ("primaryKey", rt_random rt);
       ("url", js_or (get_prop notificationData "url") (JStr "/"));
       ("matchData", js_or (get_prop notificationData "matchData") JNull)]));
    ("actions", push_actions);
    ("requireInteraction", JBool true);
    ("silent", JBool false);
    ("tag", JStr tag);
    ("renotify", JBool true);
    ("timestamp", JNum (rt_now rt 1))
  ].

(** [self.registration.showNotification(title, options)] *)
Definition showNotification (title options : JsVal) : Async unit :=
  emit (EShowNotification title options);;
  settle (rt_show rt title options).

(** The push handler.  It is rejected when the handler throws while it builds
    [options]; otherwise the value is the promise handed to [waitUntil]. *)
Definition push_handler (data : option PushMessageData) : Async unit :=
  console_log "📬 Push notification received" "";;
  let notificationData := notificationData_of data in
  match push_tag notificationData with
  | None => reject "TypeError: Cannot convert object to primitive value"
  | Some tag =>
      let options := JObj (push_options notificationData tag) in
      catch
        (showNotification (get_prop notificationData "title") options;;
         console_log "✅ Notification shown successfully" "")
        (λ error, console_error "❌ Failed to show notification:" error)
  end.

(** *** notificationclick *)

(** The click event: [event.action] (empty for a click on the body) and
    [event.notification.data]. *)
Record NotificationEvent := {
  ne_action : string;
  ne_data : JsVal
}.

(** [clients.matchAll({ type: 'window', includeUncontrolled })] *)
Definition clients_matchAll (includeUncontrolled : bool) : Async (list WindowClient) :=
  mret (if includeUncontrolled then rt_windows rt
        else filter (λ c, wc_controlled c = true) (rt_windows rt)).

(** [client.focus()] *)
Definition client_focus (client : WindowClient) : Async unit :=
  emit (EFocus (wc_id client));;
  settle (rt_focus rt (wc_id client)).

(** [client.postMessage(message)] *)
Definition client_postMessage (client : WindowClient) (message : JsVal) : Async unit :=
  emit (EPostMessage (wc_id client) message).

(** [clients.openWindow(url)] *)
Definition clients_openWindow (url : JsVal) : Async unit :=
  emit (EOpenWindow url);;
  settle (rt_open rt url).

(** The [for] loop of the watch branch; [true] when it returned from inside
    the loop. *)
Fixpoint watch_loop (data : JsVal) (clientList : list WindowClient) : Async bool :=
  match clientList with
  | [] => mret false
  | client :: rest =>
      if includes (wc_url client) (rt_origin rt) then
        detached (client_focus client);;
        client_postMessage client
          (JObj (list_to_map [("action", JStr "showLiveMatches"); ("data", data)]));;
        mret true
      else watch_loop data rest
  end.

Definition reminder_options : JsVal :=
  JObj (list_to_map [
    ("body", JStr "Don't forget to check the live match!");
    ("icon", JStr icon_192);
    ("tag", JStr "reminder")]).

(** The handler; the value is the promise handed to [waitUntil] in the
    branches that call it. *)
Definition notificationclick_handler (event : NotificationEvent) : Async unit :=
  console_log "🖱️ Notification clicked:" (ne_action event);;
  emit ENotificationClose;;
  let urlToOpen := js_or (get_prop (ne_data event) "url") (JStr "/") in
  if decide (ne_action event = "watch") then
    clientList ← clients_matchAll true;
    returned ← watch_loop (ne_data event) clientList;
    if returned : bool then mret tt
    else
      match to_string urlToOpen with
      | Some s => clients_openWindow (JStr (s ++ "?action=watch"))
      | None => reject "TypeError: Cannot convert object to primitive value"
      end
  else if decide (ne_action event = "remind") then
    console_log "⏰ Setting reminder for 5 minutes" "";;
    emit (ESetTimeout (5 * 60 * 1000) (JStr "🔔 Cricket Match Reminder") reminder_options)
  else if decide (ne_action event = "dismiss") then
    console_log "❌ Notification dismissed" ""
  else
    clientList ← clients_matchAll false;
    match clientList with
    | client :: _ => client_focus client
    | [] => clients_openWindow urlToOpen
    end.

End Handlers.

(** The windows a trace focuses or opens. *)
Definition is_window_effect (e : Effect) : bool :=
  match e with
  | EFocus _ | EOpenWindow _ => true
  | _ => false
  end.

(** The calls of [showNotification] in a trace: title and options. *)
Definition shown_notifications (t : list Effect) : list (JsVal * JsVal) :=
  omap (λ e, match e with
             | EShowNotification title options => Some (title, options)
             | _ => None
             end) t.

(** The call of the push handler to [showNotification], and the log entry
    that follows it. *)
Definition push_show (rt : Runtime) (notificationData : JsVal) (tag : string)
  : list Effect :=
  let title := get_prop notificationData "title" in
  let options := JObj (push_options rt notificationData tag) in
  [EShowNotification title options;
   match rt_show rt title options with
   | Fulfilled _ => ELog "✅ Notification shown successfully" ""
   | Rejected e => EError "❌ Failed to show notification:" e
   end].

(** The test of the watch branch on a window: its URL contains the worker's
    origin. *)
Definition at_origin (rt : Runtime) (client : WindowClient) : Prop :=
  includes (wc_url client) (rt_origin rt) = true.

Global Instance at_origin_dec rt client : Decision (at_origin rt client).
Proof. unfold at_origin. apply _. Defined.

(** The message the watch branch posts to the window it focuses. *)
Definition show_live_matches (data : JsVal) : JsVal :=
  JObj (list_to_map [("action", JStr "showLiveMatches"); ("data", data)]).

(** The calls every click starts with. *)
Definition click_prefix (event : NotificationEvent) : list Effect :=
  [ELog "🖱️ Notification clicked:" (ne_action event); ENotificationClose].

(** ** Sample surroundings, for the instances below *)

Definition sample_origin : string := "https://cricstreamzone.example".

Definition sample_runtime (network : string → option Response)
    (windows : list WindowClient) : Runtime :=
  {| rt_origin := sample_origin;
     rt_network := network;
     rt_windows := windows;
     rt_now := λ n, 1767225600000 + Z.of_nat n;
     rt_random := JNum 0;
     rt_show := λ _ _, Fulfilled tt;
     rt_focus := λ _, Fulfilled tt;
     rt_open := λ _, Fulfilled tt |}.

Definition page (body : string) : Response :=
  {| resp_status := 200; resp_type := basic; resp_body := body;
     resp_redirected := false |}.

Definition server_error : Response :=
  {| resp_status := 500; resp_type := basic; resp_body := "Internal Server Error";
     resp_redirected := false |}.


Definition cdn_image : Response :=
  {| resp_status := 200; resp_type := cors; resp_body := "png";
     resp_redirected := false |}.

Definition moved_page : Response :=
  {| resp_status := 200; resp_type := basic; resp_body := "<html>";
     resp_redirected := true |}.

Definition offline : string → option Response := λ _, None.

(** A network on which every URL is served except one. *)
Definition all_but (down : string) : string → option Response :=
  λ url, if decide (url = down) then None else Some (page url).

(** A network that answers one URL. *)
Definition only (url : string) (r : Response) : string → option Response :=
  λ u, if decide (u = url) then Some r else None.


Definition index_request : Request :=
  {| req_url := "https://cricstreamzone.example/index.html";
     req_hostname := "cricstreamzone.example";
     req_pathname := "/index.html" |}.

Definition stale_bucket : CacheStorage := [("cricstreamzone-v1.0.5", ∅)].

(** The payload whose text decodes to an object with title X and match
    identifier 42, and the payload that decodes to the empty object. *)
Definition quote_mark : string := String (Ascii.ascii_of_nat 34) EmptyString.

Definition quoted (s : string) : string := quote_mark ++ s ++ quote_mark.

Definition match_payload : PushMessageData :=
  {| pmd_text := "{" ++ quoted "title" ++ ":" ++ quoted "X" ++ ","
                     ++ quoted "matchId" ++ ":" ++ quoted "42" ++ "}";
     pmd_json := Some (JObj (list_to_map [("title", JStr "X"); ("matchId", JStr "42")])) |}.

Definition empty_payload : PushMessageData :=
  {| pmd_text := "{}"; pmd_json := Some (JObj ∅) |}.

Definition text_payload : PushMessageData :=
  {| pmd_text := "plain text"; pmd_json := None |}.

(** The current bucket is the oldest bucket, the first one a lookup over the
    storage consults. *)
Definition current_first (cs : CacheStorage) : Prop :=
  ∃ c rest, cs = (CACHE_NAME, c) :: rest.

(** The storage once a bucket was opened, and once a response was put in the
    opened bucket (a put that is refused for a partial response). *)
Definition opened (name : string) (cs : CacheStorage) : CacheStorage :=
  match bucket name cs with
  | Some _ => cs
  | None => cs ++ [(name, ∅)]
  end.

Definition open_put (name key : string) (r : Response) (cs : CacheStorage)
  : CacheStorage :=
  if decide (resp_status r = 206) then opened name cs
  else storage_put name key r (opened name cs).

(** The names of the buckets, as a set. *)
Definition bucket_names (cs : CacheStorage) : gset string := list_to_set (cs.*1).

(** The kinds of response a claim about the fetch handler tells apart: a
    same-origin response is of type [basic]; a cross-origin one is [cors] or
    [opaque]; a redirected response is one the fetch followed a redirect to
    obtain ([response.redirected], which the handler does not read), while a
    redirect handed back unfollowed is of type [opaqueredirect]; an error is
    a response of type [error] or of a status other than 200. *)
Definition same_origin (r : Response) : Prop := resp_type r = basic.
Definition cross_origin (r : Response) : Prop :=
  resp_type r = cors ∨ resp_type r = opaque.
Definition redirected (r : Response) : Prop := resp_redirected r = true.
Definition unfollowed_redirect (r : Response) : Prop :=
  resp_type r = opaqueredirect.
Definition error_response (r : Response) : Prop :=
  resp_type r = error ∨ resp_status r ≠ 200.

(** ** The other handlers *)

(** *** message

    The handler is synchronous and touches neither the cache storage nor a
    promise; its value is the list of the calls it makes.  The log entry
    carries the message itself and the timer takes the delay as the message
    gives it. *)
Inductive MessageCall :=
  | MLog (msg : string) (value : JsVal)
  | MSkipWaiting
  | MSetTimeout (delay title options : JsVal).

(** [v === s] for a string literal [s]. *)
Definition equals_string (v : JsVal) (s : string) : bool :=
  match v with
  | JStr s' => String.eqb s' s
  | _ => false
  end.

Definition scheduled_actions : JsVal :=
  JArr [
    JObj (list_to_map [("action", JStr "watch"); ("title", JStr "📺 Watch Live")]);
    JObj (list_to_map [("action", JStr "dismiss"); ("title", JStr "❌ Dismiss")])
  ].

(** The options of the notification the timer shows. *)
Definition scheduled_options (body matchData : JsVal) : gmap string JsVal :=
  list_to_map [
    ("body", body);
    ("icon", JStr icon_192);
    ("badge", JStr icon_192);
    ("vibrate", JArr [JNum 200; JNum 100; JNum 200]);
    ("data", JObj (list_to_map [("matchData", matchData)]));
    ("actions", scheduled_actions)
  ].

Definition message_handler (data : JsVal) : list MessageCall :=
  MLog "💬 Message received:" data ::
  if truthy data && equals_string (get_prop data "action") "skipWaiting" then
    [MSkipWaiting]
  else if truthy data && equals_string (get_prop data "action") "scheduleNotification" then
    let title := get_prop data "title" in
    let body := get_prop data "body" in
    let delay := get_prop data "delay" in
    let matchData := get_prop data "matchData" in
    [MSetTimeout delay title (JObj (scheduled_options body matchData))]
  else [].

(** [notification.data] of a notification shown with the given options: the
    [data] option, [null] when the options have none. *)
Definition notification_data (options : gmap string JsVal) : JsVal :=
  default JNull (options !! "data").

(** *** sync *)

Section Sync.

Variable rt : Runtime.

(** What the handler takes from its surroundings besides the runtime:
    [response.json()], which rejects when the body does not decode;
    [JSON.stringify]; and the directory of the worker's script URL, against
    which the relative key ['matches-data'] is resolved. *)
Variable Response_json : Response → outcome JsVal.
Variable JSON_stringify : JsVal → string.
Variable worker_dir : string.

Definition matches_endpoint : string :=
  "https://script.google.com/macros/s/AKfycbxzx4xcwEGidoxEd7BQshkR9FKHjK5o0p8ukNY4NsKNR0EsShY7eV3MUxA2iXz1V8bmHg/exec".

(** [new Response(body)] *)
Definition new_Response (body : string) : Response :=
  {| resp_status := 200; resp_type := default_type; resp_body := body;
     resp_redirected := false |}.

(** The identity under which ['matches-data'] is stored. *)
Definition matches_key : string := worker_dir ++ "matches-data".

(** The value is the promise handed to [waitUntil], fulfilled at once for a
    tag the handler does not know; the put is started and not waited for. *)
Definition sync_handler (tag : string) : Async unit :=
  console_log "🔄 Background sync triggered:" tag;;
  if decide (tag = "background-sync-matches") then
    catch
      (response ← fetch rt matches_endpoint;
       data ← settle (Response_json response);
       console_log "📊 Background sync completed, matches updated" "";;
       cache ← caches_open CACHE_NAME;
       detached (cache_put cache matches_key (new_Response (JSON_stringify data))))
      (λ error, console_error "❌ Background sync failed:" error)
  else mret tt.

End Sync.

(** ** More sample surroundings *)

(** A decoder that knows one document, the empty list, and its encoder. *)
Definition sample_json (r : Response) : outcome JsVal :=
  if decide (resp_body r = "[]") then Fulfilled (JArr [])
  else Rejected "SyntaxError: Unexpected token".

Definition sample_stringify (v : JsVal) : string :=
  match v with
  | JArr [] => "[]"
  | _ => "null"
  end.

Definition sample_dir : string := "https://cricstreamzone.example/".

Definition home_window (id : nat) (controlled : bool) : WindowClient :=
  {| wc_id := id; wc_url := "https://cricstreamzone.example/"; wc_controlled := controlled |}.

(** A window whose URL does not contain the worker's origin. *)
Definition foreign_window (id : nat) : WindowClient :=
  {| wc_id := id; wc_url := "https://elsewhere.example/"; wc_controlled := false |}.

(** Notification data whose [url] is an object with a [toString] property
    of its own. *)
Definition unconvertible_url_data : JsVal :=
  JObj (list_to_map [("url", JObj (list_to_map [("toString", JNum 1)]))]).

(** A network on which every URL is served. *)
Definition online : string → option Response := λ url, Some (page url).

(** A runtime on which nothing settles well: no network, no window, and
    every promise of the runtime rejects. *)
Definition hostile_runtime (windows : list WindowClient) : Runtime :=
  {| rt_origin := sample_origin;
     rt_network := offline;
     rt_windows := windows;
     rt_now := λ n, 0;
     rt_random := JNum 0;
     rt_show := λ _ _, Rejected "TypeError: No notification permission";
     rt_focus := λ _, Rejected "InvalidAccessError";
     rt_open := λ _, Rejected "InvalidAccessError" |}.

(** A payload that names a URL and tries to set the fixed options, and one
    whose match identifier cannot be converted to a string. *)
Definition overriding_payload : PushMessageData :=
  {| pmd_text := "";
     pmd_json := Some (JObj (list_to_map [
       ("title", JStr "Final");
       ("url", JStr "/live");
       ("actions", JArr []);
       ("requireInteraction", JBool false);
       ("tag", JStr "mine")])) |}.

Definition unconvertible_payload : PushMessageData :=
  {| pmd_text := "";
     pmd_json := Some (JObj (list_to_map [
       ("matchId", JObj (list_to_map [("toString", JNum 1)]))])) |}.

(** A payload whose [url] has no string form. *)
Definition unconvertible_url_payload : PushMessageData :=
  {| pmd_text := "";
     pmd_json := Some (JObj (list_to_map [
       ("url", JObj (list_to_map [("toString", JNum 1)]))])) |}.

(** A payload whose match identifier is the number 10^21, and whose body
    replaces the default one. *)
Definition numeric_payload : PushMessageData :=
  {| pmd_text := "";
     pmd_json := Some (JObj (list_to_map [
       ("body", JStr "Stumps");
       ("matchId", JNum (10 ^ 21))])) |}.

Definition schedule_message : JsVal :=
  JObj (list_to_map [
    ("action", JStr "scheduleNotification");
    ("title", JStr "Toss");
    ("body", JStr "The toss is in ten minutes");
    ("delay", JNum 600000);
    ("matchData", JNull)]).

(** What a named bucket stores for a request identity. *)
Definition stored_at (name key : string) (cs : CacheStorage) : option Response :=
  c ← bucket name cs; c !! key.

(** Every manifest entry is answered, with an ok status. *)
Definition manifest_fetched (rt : Runtime) : Prop :=
  ∀ u, u ∈ urlsToCache →
    ∃ r, rt_network rt (absolute rt u) = Some r ∧ ok_status r = true.

(** * Properties *)

Ltac async_unfold :=
  unfold run, caches_open, caches_keys, caches_delete, caches_match,
    cache_put, skipWaiting, clients_claim, console_log, console_error,
    catch, detached, emit, reject, settle, get_caches, set_caches,
    mbind, mret, Async_bind, Async_ret in *.

(** ** Numbers as strings

    The rendering on the values where the double and its digits matter: the
    safe integers print in full, the integers above 2^53 print the digits of
    the nearest double, and from 10^21 on the notation has an exponent. *)
Lemma number_to_string_values :
  number_to_string 0 = "0" ∧
  number_to_string 42 = "42" ∧
  number_to_string (-7) = "-7" ∧
  number_to_string (2 ^ 53 - 1) = "9007199254740991" ∧
  number_to_string (2 ^ 53 + 1) = "9007199254740992" ∧
  number_to_string (2 ^ 64) = "18446744073709552000" ∧
  number_to_string (10 ^ 21 - 1) = "1e+21" ∧
  number_to_string (10 ^ 21) = "1e+21" ∧
  number_to_string (2 ^ 70) = "1.1805916207174113e+21" ∧
  number_to_string (10 ^ 23) = "1e+23" ∧
  number_to_string (2 ^ 1024 - 2 ^ 971) = "1.7976931348623157e+308" ∧
  number_to_string (2 ^ 1024) = "Infinity".
Proof. repeat split; vm_compute; reflexivity. Qed.

(** ** The cache storage *)

Section Storage.

Implicit Types (cs : CacheStorage) (name key : string) (r : Response).

Lemma bucket_app cs name cs' :
  bucket name (cs ++ cs') =
  match bucket name cs with Some c => Some c | None => bucket name cs' end.
Proof.
  induction cs as [|[n c] cs IH]; simpl; [by destruct (bucket name cs')|].
  by case_decide.
Qed.

Lemma bucket_storage_put cs name key r :
  bucket name (storage_put name key r cs) = (λ c, <[key := r]> c) <$> bucket name cs.
Proof.
  induction cs as [|[n c] cs IH]; simpl; [done|].
  case_decide; simpl; case_decide; try done.
Qed.

Lemma bucket_storage_put_ne cs name name' key r :
  name' ≠ name →
  bucket name' (storage_put name key r cs) = bucket name' cs.
Proof.
  intros Hne. induction cs as [|[n c] cs IH]; simpl; [done|].
  case_decide; simpl; case_decide; subst; try done.
Qed.

Lemma bucket_open_put cs name key r :
  resp_status r ≠ 206 →
  bucket name (open_put name key r cs) =
  Some (<[key := r]> (default ∅ (bucket name cs))).
Proof.
  intros Hfull. unfold open_put, opened. rewrite decide_False by done.
  rewrite bucket_storage_put.
  destruct (bucket name cs) as [c|] eqn:Hb; simpl.
  - by rewrite Hb.
  - rewrite bucket_app, Hb. simpl. by case_decide.
Qed.

(** What is stored by opening and putting is what the bucket then holds. *)
Lemma open_put_lookup cs name key r :
  resp_status r ≠ 206 →
  ∃ c, bucket name (open_put name key r cs) = Some c ∧ c !! key = Some r.
Proof.
  intros Hfull. eexists. split; [by apply bucket_open_put|].
  apply lookup_insert_eq.
Qed.

(** A partial response is not stored: the bucket is opened and nothing else
    happens. *)
Lemma open_put_partial cs name key r :
  resp_status r = 206 → open_put name key r cs = opened name cs.
Proof. intros Hpartial. unfold open_put. by rewrite decide_True. Qed.

Lemma storage_match_app key cs cs' :
  storage_match key (cs ++ cs') =
  match storage_match key cs with
  | Some r => Some r
  | None => storage_match key cs'
  end.
Proof.
  induction cs as [|[n c] cs IH]; simpl; [by destruct (storage_match key cs')|].
  by destruct (c !! key).
Qed.

Lemma storage_match_put_miss cs name key r :
  storage_match key cs = None →
  is_Some (bucket name cs) →
  storage_match key (storage_put name key r cs) = Some r.
Proof.
  induction cs as [|[n c] cs IH]; simpl; intros Hm [c' Hb]; [done|].
  destruct (c !! key) eqn:Hc; [done|].
  case_decide; simpl.
  - by rewrite lookup_insert_eq.
  - rewrite Hc. apply IH; [done|by eexists].
Qed.

(** After a miss in every bucket, opening the bucket and putting the response
    makes the next lookup find it. *)
Lemma storage_match_open_put cs name key r :
  resp_status r ≠ 206 →
  storage_match key cs = None →
  storage_match key (open_put name key r cs) = Some r.
Proof.
  intros Hfull Hm. unfold open_put, opened. rewrite decide_False by done.
  destruct (bucket name cs) as [c|] eqn:Hb.
  - apply storage_match_put_miss; [done|by eexists].
  - apply storage_match_put_miss.
    + by rewrite storage_match_app, Hm.
    + rewrite bucket_app, Hb. simpl. case_decide; [by eexists|done].
Qed.

(** When the current bucket is the only one, the handler's lookup is the
    lookup in that bucket. *)
Lemma storage_match_sole_bucket name (c : Cache) key :
  storage_match key [(name, c)] = c !! key.
Proof. simpl. by destruct (c !! key). Qed.

Lemma open_put_run name key r (w : World) :
  detached (caches_open name ≫= λ cache, cache_put cache key r) w =
  (Fulfilled tt, {| w_caches := open_put name key r (w_caches w);
                    w_trace := w_trace w |}).
Proof.
  destruct w as [cs t]. async_unfold. unfold open_put, opened. simpl.
  destruct (decide (resp_status r = 206)), (bucket name cs); done.
Qed.

Lemma stored_at_opened cs name name' key :
  stored_at name' key (opened name cs) = stored_at name' key cs.
Proof.
  unfold stored_at, opened. destruct (bucket name cs) as [c|] eqn:Hb; [done|].
  rewrite bucket_app. destruct (bucket name' cs) as [c'|] eqn:Hb'; [done|].
  simpl. case_decide; [|done]. simpl. apply lookup_empty.
Qed.

End Storage.

(** ** fetch: what the handler does in each branch *)

Section Fetch.

Variable rt : Runtime.
Implicit Types (request : Request) (cs : CacheStorage).

Lemma fetch_handler_dynamic request cs :
  is_dynamic request = true →
  run (fetch_handler rt request) cs =
  match rt_network rt (req_url request) with
  | Some response =>
      (Fulfilled (Some response),
       {| w_caches := open_put CACHE_NAME (req_url request) response cs;
          w_trace := [ENetFetch (req_url request)] |})
  | None =>
      (Fulfilled (storage_match (req_url request) cs),
       {| w_caches := cs; w_trace := [ENetFetch (req_url request)] |})
  end.
Proof.
  intros Hdyn. unfold fetch_handler. rewrite Hdyn.
  unfold fetch. async_unfold. simpl.
  destruct (rt_network rt (req_url request)) as [response|]; simpl; [|done].
  unfold open_put, opened.
  destruct (decide (resp_status response = 206)), (bucket CACHE_NAME cs); done.
Qed.

Lemma fetch_handler_static_hit request cs stored :
  is_dynamic request = false →
  storage_match (req_url request) cs = Some stored →
  run (fetch_handler rt request) cs =
  (Fulfilled (Some stored), {| w_caches := cs; w_trace := [] |}).
Proof.
  intros Hdyn Hhit. unfold fetch_handler. rewrite Hdyn.
  async_unfold. simpl. by rewrite Hhit.
Qed.

Lemma fetch_handler_static_miss request cs :
  is_dynamic request = false →
  storage_match (req_url request) cs = None →
  run (fetch_handler rt request) cs =
  match rt_network rt (req_url request) with
  | Some response =>
      (Fulfilled (Some response),
       {| w_caches :=
            if not_cacheable response then cs
            else open_put CACHE_NAME (req_url request) response cs;
          w_trace := [ENetFetch (req_url request)] |})
  | None =>
      (Rejected "TypeError: Failed to fetch",
       {| w_caches := cs; w_trace := [ENetFetch (req_url request)] |})
  end.
Proof.
  intros Hdyn Hmiss. unfold fetch_handler. rewrite Hdyn.
  unfold fetch. async_unfold. simpl. rewrite Hmiss. simpl.
  destruct (rt_network rt (req_url request)) as [response|]; simpl; [|done].
  destruct (not_cacheable response); simpl; [done|].
  unfold open_put, opened.
  destruct (decide (resp_status response = 206)), (bucket CACHE_NAME cs); done.
Qed.

Lemma not_cacheable_false response :
  not_cacheable response = false ↔
  resp_type response = basic ∧ resp_status response = 200.
Proof.
  unfold not_cacheable. rewrite orb_false_iff, !negb_false_iff.
  rewrite bool_decide_eq_true, Z.eqb_eq. tauto.
Qed.

Lemma not_cacheable_true response :
  not_cacheable response = true ↔
  resp_type response ≠ basic ∨ resp_status response ≠ 200.
Proof.
  unfold not_cacheable. rewrite orb_true_iff, !negb_true_iff.
  rewrite bool_decide_eq_false, Z.eqb_neq. tauto.
Qed.

End Fetch.

(** *** The current bucket as the first bucket

    Activation leaves the current bucket as the only bucket, and the fetch
    handler keeps it the first one; a response the current bucket holds is
    then the one the handler's lookup finds. *)

Section CurrentFirst.

Implicit Types (cs : CacheStorage) (request : Request).

Lemma storage_match_current_first cs (c : Cache) key r :
  current_first cs →
  bucket CACHE_NAME cs = Some c →
  c !! key = Some r →
  storage_match key cs = Some r.
Proof.
  intros (c' & rest & ->) Hb Hc. simpl in Hb.
  injection Hb as ->. simpl. by rewrite Hc.
Qed.

Lemma current_first_opened cs :
  current_first cs → opened CACHE_NAME cs = cs.
Proof. intros (c & rest & ->). reflexivity. Qed.

Lemma current_first_open_put cs key r :
  current_first cs → current_first (open_put CACHE_NAME key r cs).
Proof.
  intros Hfirst. unfold open_put. rewrite current_first_opened by done.
  case_decide; [done|].
  destruct Hfirst as (c & rest & ->). simpl. by eexists _, _.
Qed.

Lemma current_first_fetch_handler rt request cs :
  current_first cs →
  current_first (w_caches (run (fetch_handler rt request) cs).2).
Proof.
  intros Hfirst. destruct (is_dynamic request) eqn:Hdyn.
  - rewrite fetch_handler_dynamic by done.
    destruct (rt_network rt (req_url request)); simpl; [|done].
    by apply current_first_open_put.
  - destruct (storage_match (req_url request) cs) as [stored|] eqn:Hm.
    + by rewrite (fetch_handler_static_hit rt request cs stored).
    + rewrite fetch_handler_static_miss by done.
      destruct (rt_network rt (req_url request)) as [response|]; simpl; [|done].
      destruct (not_cacheable response); [done|].
      by apply current_first_open_put.
Qed.

(** A static request whose response the current bucket holds is answered
    with it, once the current bucket is the first bucket. *)
Lemma static_hit_in_current_bucket rt request cs (c : Cache) stored :
  is_dynamic request = false →
  current_first cs →
  bucket CACHE_NAME cs = Some c →
  c !! req_url request = Some stored →
  run (fetch_handler rt request) cs =
  (Fulfilled (Some stored), {| w_caches := cs; w_trace := [] |}).
Proof.
  intros Hdyn Hfirst Hb Hc. apply fetch_handler_static_hit; [done|].
  by apply (storage_match_current_first cs c).
Qed.

End CurrentFirst.


(** C3, as the code has it.  A static GET request that misses the cache
    storage goes to the network and the response is handed to the requester;
    a same-origin response of status 200 is also stored, whether or not a
    redirect was followed to obtain it, so that the current bucket holds it
    and the next lookup finds it, while a cross-origin response, a redirect
    handed back unfollowed or an error response leaves the cache storage as
    it was. *)
Theorem static_miss_caches_basic_200
    (rt : Runtime) (request : Request) (cs : CacheStorage) (response : Response) :
  is_dynamic request = false →
  storage_match (req_url request) cs = None →
  rt_network rt (req_url request) = Some response →
  let url := req_url request in
  let result := run (fetch_handler rt request) cs in
  respondWith result.1 = Served response ∧
  (same_origin response ∧ resp_status response = 200 →
     (∃ c, bucket CACHE_NAME (w_caches result.2) = Some c ∧
           c !! url = Some response) ∧
     storage_match url (w_caches result.2) = Some response) ∧
  (cross_origin response ∨ unfollowed_redirect response ∨
   error_response response →
     w_caches result.2 = cs).
Proof.
  intros Hdyn Hmiss Hnet url result. subst result url.
  rewrite fetch_handler_static_miss, Hnet by done. simpl.
  split; [done|]. split.
  - intros Hok.
    assert (resp_status response ≠ 206) as Hfull
      by (destruct Hok as [_ ->]; done).
    apply not_cacheable_false in Hok. rewrite Hok.
    split; [by apply open_put_lookup|by apply storage_match_open_put].
  - intros Hbad.
    assert (not_cacheable response = true) as ->; [|done].
    apply not_cacheable_true.
    unfold cross_origin, unfollowed_redirect, error_response in Hbad.
    destruct Hbad as [[H|H]|[H|[H|H]]]; try (left; rewrite H; discriminate).
    by right.
Qed.

(** C4. A static request for which the cache storage holds a response is
    answered with that response whatever the network would do: the handler
    makes no call to the network (nor any other call) and leaves the cache
    storage untouched. *)
Theorem static_cache_first
    (rt : Runtime) (request : Request) (cs : CacheStorage) (stored : Response) :
  is_dynamic request = false →
  storage_match (req_url request) cs = Some stored →
  let result := run (fetch_handler rt request) cs in
  respondWith result.1 = Served stored ∧
  w_trace result.2 = [] ∧
  w_caches result.2 = cs.
Proof.
  intros Hdyn Hhit result. subst result.
  by rewrite (fetch_handler_static_hit rt request cs stored).
Qed.


(** ** activate *)

Section Activate.

Implicit Types (cs : CacheStorage) (names : list string).

Lemma filter_agree {A} (P Q : A → Prop) `{!∀ x, Decision (P x)}
    `{!∀ x, Decision (Q x)} (l : list A) :
  (∀ x, x ∈ l → P x ↔ Q x) → filter P l = filter Q l.
Proof.
  induction l as [|x l IH]; intros Hl; [done|].
  rewrite !filter_cons.
  assert (P x ↔ Q x) as Hx by (apply Hl; left).
  rewrite IH by (intros y Hy; apply Hl; by right).
  by repeat case_decide; try tauto.
Qed.

Lemma for_each_cons {A} (f : A → Async unit) x l (w : World) :
  for_each f (x :: l) w =
  match f x w with
  | (Fulfilled _, w') => for_each f l w'
  | (Rejected e, w') => (Rejected e, w')
  end.
Proof. done. Qed.

Lemma delete_old_run name (w : World) :
  delete_old name w =
  (Fulfilled tt,
   if decide (name ≠ CACHE_NAME) then
     {| w_caches := filter (λ p, p.1 ≠ name) (w_caches w);
        w_trace := w_trace w ++ [ELog "🗑️ Deleting old cache:" name] |}
   else w).
Proof. unfold delete_old. by case_decide. Qed.

Lemma delete_old_loop names (w : World) :
  for_each delete_old names w =
  (Fulfilled tt,
   {| w_caches := filter (λ p, p.1 = CACHE_NAME ∨ p.1 ∉ names) (w_caches w);
      w_trace := w_trace w ++
        (ELog "🗑️ Deleting old cache:" <$> filter (λ n, n ≠ CACHE_NAME) names) |}).
Proof.
  revert w. induction names as [|n names IH]; intros [cs t].
  - simpl. async_unfold. simpl. f_equal. rewrite app_nil_r. f_equal.
    induction cs as [|p cs IHcs]; [done|].
    rewrite filter_cons_True, <- IHcs; [done|].
    right. apply not_elem_of_nil.
  - rewrite for_each_cons, delete_old_run, IH, filter_cons.
    case_decide as Hn; simpl; f_equal; f_equal.
    + rewrite list_filter_filter. apply list_filter_iff.
      intros p. rewrite not_elem_of_cons. intuition congruence.
    + by rewrite <- app_assoc.
    + apply list_filter_iff. intros p. rewrite not_elem_of_cons.
      destruct (decide (p.1 = CACHE_NAME)); intuition congruence.
Qed.

(** The activate handler keeps the buckets named by the current version and
    deletes every other one. *)
Lemma activate_handler_run cs :
  run activate_handler cs =
  (Fulfilled tt,
   {| w_caches := filter (λ p, p.1 = CACHE_NAME) cs;
      w_trace :=
        [ELog "🚀 Service Worker activating..." ""] ++
        (ELog "🗑️ Deleting old cache:" <$> filter (λ n, n ≠ CACHE_NAME) (cs.*1)) ++
        [ELog "✅ Service Worker activated" ""; EClientsClaim] |}).
Proof.
  unfold activate_handler, run.
  unfold caches_keys, clients_claim, console_log, emit, get_caches, mbind,
    mret, Async_bind, Async_ret. simpl.
  rewrite delete_old_loop. simpl. f_equal. f_equal.
  - apply filter_agree. intros p Hp. split; [|by left].
    intros [Hcur|Hnot]; [done|]. destruct Hnot.
    apply list_elem_of_fmap. by exists p.
  - by rewrite <- !app_assoc.
Qed.

Lemma bucket_filter_current cs :
  bucket CACHE_NAME (filter (λ p, p.1 = CACHE_NAME) cs) = bucket CACHE_NAME cs.
Proof.
  induction cs as [|[n c] cs IH]; [done|].
  rewrite filter_cons. simpl.
  by destruct (decide (n = CACHE_NAME)) as [->|Hne]; simpl.
Qed.

Lemma bucket_filter_other cs name :
  name ≠ CACHE_NAME →
  bucket name (filter (λ p, p.1 = CACHE_NAME) cs) = None.
Proof.
  intros Hne. induction cs as [|[n c] cs IH]; [done|].
  rewrite filter_cons. simpl.
  destruct (decide (n = CACHE_NAME)) as [->|Hn]; simpl; [|done].
  by rewrite decide_False.
Qed.

Lemma bucket_names_filter_current cs :
  bucket_names (filter (λ p, p.1 = CACHE_NAME) cs) =
  bucket_names cs ∩ {[CACHE_NAME]}.
Proof.
  unfold bucket_names. apply set_eq. intros n.
  rewrite elem_of_intersection, !elem_of_list_to_set, elem_of_singleton.
  rewrite !list_elem_of_fmap. split.
  - intros (p & -> & Hp). apply list_elem_of_filter in Hp as [Hc Hp].
    split; [by exists p|done].
  - intros [(p & -> & Hp) Hc]. exists p. split; [done|].
    by apply list_elem_of_filter.
Qed.

End Activate.

(** With bucket names that are pairwise distinct, as the names of a cache
    storage are, activation leaves at most the current bucket. *)
Lemma activate_current_first (cs : CacheStorage) :
  NoDup (cs.*1) →
  CACHE_NAME ∈ bucket_names cs →
  ∃ c, w_caches (run activate_handler cs).2 = [(CACHE_NAME, c)] ∧
       bucket CACHE_NAME cs = Some c.
Proof.
  intros Hnodup Hin. rewrite activate_handler_run. simpl.
  unfold bucket_names in Hin. apply elem_of_list_to_set in Hin.
  induction cs as [|[n c] cs IH]; [by apply elem_of_nil in Hin|].
  apply NoDup_cons in Hnodup as [Hn Hnodup]. simpl in Hn.
  rewrite filter_cons. simpl.
  destruct (decide (n = CACHE_NAME)) as [->|Hne]; simpl.
  - exists c. split; [|done]. f_equal.
    clear IH Hin Hnodup. induction cs as [|[n' c'] cs IH]; [done|].
    rewrite filter_cons. simpl. simpl in Hn. apply not_elem_of_cons in Hn as [Hn' Hn].
    rewrite decide_False by congruence. by apply IH.
  - apply IH; [done|]. simpl in Hin.
    apply elem_of_cons in Hin as [Heq|Hin]; [congruence|done].
Qed.

(** C5, as the code has it.  After activate, the buckets whose names differ
    from the current version string are gone and the current bucket is kept
    with its content; when the prior bucket names include the current
    version string, the resulting set of bucket names is exactly the
    singleton of it. *)
Theorem activate_leaves_current_only (cs : CacheStorage) :
  CACHE_NAME ∈ bucket_names cs →
  let cs' := w_caches (run activate_handler cs).2 in
  bucket_names cs' = {[CACHE_NAME]} ∧
  bucket CACHE_NAME cs' = bucket CACHE_NAME cs ∧
  ∀ name, name ≠ CACHE_NAME → bucket name cs' = None.
Proof.
  intros Hin cs'. subst cs'. rewrite activate_handler_run. simpl.
  split; [|split].
  - rewrite bucket_names_filter_current. set_solver.
  - apply bucket_filter_current.
  - intros name. apply bucket_filter_other.
Qed.

(** Without a bucket of the current name, activate leaves no bucket at all. *)
Lemma activate_without_current (cs : CacheStorage) :
  CACHE_NAME ∉ bucket_names cs →
  bucket_names (w_caches (run activate_handler cs).2) = ∅.
Proof.
  intros Hnot. rewrite activate_handler_run. simpl.
  rewrite bucket_names_filter_current. set_solver.
Qed.

(** ** install *)

Section Install.

Variable rt : Runtime.
Implicit Types (cs : CacheStorage).

Lemma for_each_emit {A} (f : A → Effect) (l : list A) (w : World) :
  for_each (λ x, emit (f x)) l w =
  (Fulfilled tt, {| w_caches := w_caches w; w_trace := w_trace w ++ (f <$> l) |}).
Proof.
  revert w. induction l as [|x l IH]; intros [cs t].
  - simpl. async_unfold. simpl. by rewrite app_nil_r.
  - rewrite for_each_cons. unfold emit at 1. rewrite IH. simpl.
    by rewrite <- app_assoc.
Qed.

Lemma ok_status_full (r : Response) :
  ok_status r = true → resp_status r ≠ 206.
Proof.
  unfold ok_status. rewrite !andb_true_iff, negb_true_iff, Z.eqb_neq. tauto.
Qed.

Lemma all_fetched_full urls rs :
  all_fetched rt urls = Some rs → Forall (λ p, resp_status p.2 ≠ 206) rs.
Proof.
  revert rs. induction urls as [|u urls IH]; intros rs; simpl.
  - by intros [= <-].
  - destruct (rt_network rt u) as [r|]; [|done].
    destruct (ok_status r) eqn:Hok; [|done].
    destruct (all_fetched rt urls) as [rs'|]; [|done].
    intros [= <-]. constructor; [by apply ok_status_full|by apply IH].
Qed.

Lemma for_each_put cache (rs : list (string * Response)) (w : World) :
  Forall (λ p, resp_status p.2 ≠ 206) rs →
  for_each (λ p, cache_put cache p.1 p.2) rs w =
  (Fulfilled tt,
   {| w_caches := foldl (λ cs p, storage_put cache p.1 p.2 cs) (w_caches w) rs;
      w_trace := w_trace w |}).
Proof.
  intros Hfull. revert w. induction Hfull as [|p rs Hp _ IH]; intros [cs t].
  - done.
  - rewrite for_each_cons. unfold cache_put at 1.
    rewrite decide_False by done. async_unfold. simpl.
    by rewrite IH.
Qed.

Lemma caches_open_run name (w : World) :
  caches_open name w =
  (Fulfilled name, {| w_caches := opened name (w_caches w); w_trace := w_trace w |}).
Proof.
  destruct w as [cs t]. async_unfold. unfold opened. simpl.
  by destruct (bucket name cs).
Qed.

(** The whole run of the install handler: the bucket is opened, every
    manifest entry is requested, and then either all responses are stored and
    [skipWaiting] is called, or the rejection of [addAll] is logged. *)
Lemma install_handler_run cs :
  run (install_handler rt) cs =
  let fetches := ENetFetch <$> (absolute rt <$> urlsToCache) in
  match all_fetched rt (absolute rt <$> urlsToCache) with
  | Some rs =>
      (Fulfilled tt,
       {| w_caches :=
            foldl (λ cs p, storage_put CACHE_NAME p.1 p.2 cs)
              (opened CACHE_NAME cs) rs;
          w_trace :=
            [ELog "🔧 Service Worker installing..." "";
             ELog "📦 Caching app shell" ""] ++ fetches ++
            [ELog "✅ Service Worker installed successfully" ""; ESkipWaiting] |})
  | None =>
      (Fulfilled tt,
       {| w_caches := opened CACHE_NAME cs;
          w_trace :=
            [ELog "🔧 Service Worker installing..." "";
             ELog "📦 Caching app shell" ""] ++ fetches ++
            [EError "❌ Service Worker installation failed:"
               "TypeError: Failed to execute 'addAll' on 'Cache': Request failed"] |})
  end.
Proof.
  unfold install_handler, run, cache_addAll, console_log, console_error,
    skipWaiting.
  unfold catch, mbind, Async_bind. cbv beta.
  unfold emit at 1. cbv beta iota.
  rewrite caches_open_run. cbv beta iota.
  unfold emit at 1. cbv beta iota.
  rewrite (for_each_emit (λ u, ENetFetch (absolute rt u))). cbv beta iota.
  rewrite <- list_fmap_compose.
  destruct (all_fetched rt (absolute rt <$> urlsToCache)) as [rs|] eqn:Hrs.
  - rewrite for_each_put by (by apply (all_fetched_full _ _ Hrs)).
    unfold emit. cbv beta iota.
    unfold w_trace, w_caches. by rewrite <- !app_assoc.
  - unfold reject, emit. cbv beta iota.
    unfold w_trace, w_caches. by rewrite <- !app_assoc.
Qed.

(** The promise the install handler hands to [waitUntil] fulfils whatever the
    network does. *)
Lemma install_always_succeeds cs :
  event_succeeded (run (install_handler rt) cs).1 = true.
Proof.
  rewrite install_handler_run. cbv zeta.
  by destruct (all_fetched rt (absolute rt <$> urlsToCache)).
Qed.

(** When some manifest entry cannot be fetched, nothing is stored: the bucket
    holds what it held before (and is empty when it is new), and
    [skipWaiting] is not called. *)
Lemma install_failure_stores_nothing cs :
  all_fetched rt (absolute rt <$> urlsToCache) = None →
  let result := run (install_handler rt) cs in
  bucket CACHE_NAME (w_caches result.2) = Some (default ∅ (bucket CACHE_NAME cs)) ∧
  ESkipWaiting ∉ w_trace result.2.
Proof.
  intros Hfail result. subst result. rewrite install_handler_run, Hfail.
  cbv zeta. unfold snd, w_caches, w_trace. split.
  - unfold opened. destruct (bucket CACHE_NAME cs) as [c|] eqn:Hb; simpl.
    + by rewrite Hb.
    + rewrite bucket_app, Hb. done.
  - rewrite !elem_of_app, list_elem_of_fmap, !elem_of_cons, !elem_of_nil.
    intros [[?|[?|[]]]|[(u & ? & _)|[?|[]]]]; done.
Qed.

Lemma all_fetched_urls urls rs :
  all_fetched rt urls = Some rs → rs.*1 = urls.
Proof.
  revert rs. induction urls as [|u urls IH]; intros rs; simpl.
  - by intros [= <-].
  - destruct (rt_network rt u) as [r|]; [|done].
    destruct (ok_status r); [|done].
    destruct (all_fetched rt urls) as [rs'|]; [|done].
    intros [= <-]. simpl. f_equal. by apply IH.
Qed.

Lemma bucket_foldl_put name (c : Cache) (rs : list (string * Response)) cs :
  bucket name cs = Some c →
  bucket name (foldl (λ cs p, storage_put name p.1 p.2 cs) cs rs) =
  Some (foldl (λ c p, <[p.1 := p.2]> c) c rs).
Proof.
  revert c cs. induction rs as [|p rs IH]; intros c cs Hb; [done|].
  simpl. apply IH. by rewrite bucket_storage_put, Hb.
Qed.

Lemma foldl_insert_is_Some (rs : list (string * Response)) (c : Cache) u :
  u ∈ rs.*1 ∨ is_Some (c !! u) →
  is_Some (foldl (λ c p, <[p.1 := p.2]> c) c rs !! u).
Proof.
  revert c. induction rs as [|p rs IH]; intros c; simpl.
  - intros [Hin|Hc]; [by apply elem_of_nil in Hin|done].
  - intros [Hin|Hc]; apply IH.
    + apply elem_of_cons in Hin as [->|Hin]; [right|by left].
      rewrite lookup_insert_eq. by eexists.
    + right. destruct (decide (p.1 = u)) as [->|Hne].
      * rewrite lookup_insert_eq. by eexists.
      * by rewrite lookup_insert_ne.
Qed.

(** When every manifest entry is fetched with an ok status, the bucket holds
    a response for each of them and [skipWaiting] is called. *)
Lemma install_success_stores_manifest cs rs :
  all_fetched rt (absolute rt <$> urlsToCache) = Some rs →
  let result := run (install_handler rt) cs in
  ESkipWaiting ∈ w_trace result.2 ∧
  ∃ c, bucket CACHE_NAME (w_caches result.2) = Some c ∧
       ∀ u, u ∈ urlsToCache → is_Some (c !! absolute rt u).
Proof.
  intros Hall result. subst result. rewrite install_handler_run, Hall.
  cbv zeta. cbn [snd w_caches w_trace]. split.
  - rewrite !elem_of_app, !elem_of_cons. right. right. right. by left.
  - assert (∃ c0, bucket CACHE_NAME (opened CACHE_NAME cs) = Some c0) as [c0 Hc0].
    { unfold opened. destruct (bucket CACHE_NAME cs) as [c|] eqn:Hb.
      - by exists c.
      - exists ∅. rewrite bucket_app, Hb. reflexivity. }
    eexists. split; [by apply bucket_foldl_put|].
    intros u Hu. apply foldl_insert_is_Some. left.
    rewrite (all_fetched_urls _ _ Hall). by apply list_elem_of_fmap_2.
Qed.

End Install.

(** ** push *)

Section Push.

Variable rt : Runtime.
Implicit Types (cs : CacheStorage) (data : option PushMessageData).

Lemma push_handler_run data cs :
  run (push_handler rt data) cs =
  match push_tag (notificationData_of data) with
  | Some tag =>
      (Fulfilled tt,
       {| w_caches := cs;
          w_trace := ELog "📬 Push notification received" ""
                     :: push_show rt (notificationData_of data) tag |})
  | None =>
      (Rejected "TypeError: Cannot convert object to primitive value",
       {| w_caches := cs;
          w_trace := [ELog "📬 Push notification received" ""] |})
  end.
Proof.
  unfold push_handler, run, push_show, showNotification.
  destruct (push_tag (notificationData_of data)) as [tag|]; [|done].
  async_unfold. simpl.
  by destruct (rt_show rt _ _).
Qed.

Lemma shown_push_show notificationData tag :
  shown_notifications
    (ELog "📬 Push notification received" "" :: push_show rt notificationData tag) =
  [(get_prop notificationData "title",
    JObj (push_options rt notificationData tag))].
Proof.
  unfold push_show, shown_notifications. simpl.
  by destruct (rt_show rt _ _).
Qed.

(** Reading a property of [{...defaults, ...pushData}]. *)
Lemma get_prop_spread2 (defaults : gmap string JsVal) (pushData : JsVal) k :
  get_prop (spread2 (JObj defaults) pushData) k =
  default (default JUndefined (defaults !! k)) (own_props pushData !! k).
Proof.
  unfold spread2, get_prop. simpl. rewrite lookup_union.
  by destruct (own_props pushData !! k), (defaults !! k).
Qed.

Lemma push_options_body nd tag : push_options rt nd tag !! "body" = Some (get_prop nd "body").
Proof. reflexivity. Qed.

Lemma push_options_icon nd tag : push_options rt nd tag !! "icon" = Some (get_prop nd "icon").
Proof. reflexivity. Qed.

Lemma push_options_badge nd tag : push_options rt nd tag !! "badge" = Some (get_prop nd "badge").
Proof. reflexivity. Qed.

Lemma push_options_tag nd tag : push_options rt nd tag !! "tag" = Some (JStr tag).
Proof. reflexivity. Qed.

End Push.

(** A push without payload is shown with the default title, body, icon and
    badge, and with the generic tag. *)
Lemma push_without_payload_shows_defaults (rt : Runtime) (cs : CacheStorage) :
  ∃ options,
    shown_notifications (w_trace (run (push_handler rt None) cs).2) =
      [(JStr "CricStreamZone", JObj options)] ∧
    options !! "body" = Some (JStr "New cricket match update!") ∧
    options !! "icon" = Some (JStr icon_192) ∧
    options !! "badge" = Some (JStr icon_192) ∧
    options !! "tag" = Some (JStr "cricket-match-general").
Proof.
  rewrite push_handler_run.
  change (push_tag (notificationData_of None)) with (Some "cricket-match-general").
  cbn [snd w_trace]. rewrite shown_push_show.
  eexists. split; [reflexivity|]. repeat split; reflexivity.
Qed.

(** C6. A push whose payload decodes shows one notification in which each of
    title, body, icon and badge is the decoded value when the payload has
    that field and the default otherwise, and whose tag is [cricket-match-]
    followed by the payload's match identifier, or by [general] when the
    identifier is absent or falsy. *)
Theorem push_json_merged_over_defaults
    (rt : Runtime) (cs : CacheStorage) (d : PushMessageData) (pushData : JsVal)
    (suffix : string) :
  pmd_json d = Some pushData →
  let field k :=
    default (default JUndefined (default_notification !! k))
            (own_props pushData !! k) in
  let matchId := default JUndefined (own_props pushData !! "matchId") in
  (if truthy matchId then to_string matchId else Some "general") = Some suffix →
  ∃ options,
    shown_notifications (w_trace (run (push_handler rt (Some d)) cs).2) =
      [(field "title", JObj options)] ∧
    options !! "body" = Some (field "body") ∧
    options !! "icon" = Some (field "icon") ∧
    options !! "badge" = Some (field "badge") ∧
    options !! "tag" = Some (JStr ("cricket-match-" ++ suffix)).
Proof.
  intros Hjson field matchId Htag.
  assert (push_tag (notificationData_of (Some d)) =
          Some ("cricket-match-" ++ suffix)) as Hpush.
  { unfold push_tag, notificationData_of. rewrite Hjson, get_prop_spread2.
    change (default_notification !! "matchId") with (@None JsVal). simpl.
    fold matchId. unfold js_or. destruct (truthy matchId).
    - by rewrite Htag.
    - by injection Htag as <-. }
  rewrite push_handler_run, Hpush. cbn [snd w_trace].
  rewrite shown_push_show.
  unfold notificationData_of. rewrite Hjson.
  eexists. split; [by rewrite get_prop_spread2|].
  rewrite push_options_body, push_options_icon, push_options_badge,
    push_options_tag, !get_prop_spread2.
  done.
Qed.

(** C7. A push whose payload does not decode still shows its notification and
    the event does not fail: the title is the default one, the body is the
    payload text, and every other option is the one a push without payload
    is shown with. *)
Theorem push_plain_text_body (rt : Runtime) (cs : CacheStorage) (d : PushMessageData) :
  pmd_json d = None →
  let result := run (push_handler rt (Some d)) cs in
  let plain := run (push_handler rt None) cs in
  event_succeeded result.1 = true ∧
  ∃ options options0,
    shown_notifications (w_trace result.2) = [(JStr "CricStreamZone", JObj options)] ∧
    shown_notifications (w_trace plain.2) = [(JStr "CricStreamZone", JObj options0)] ∧
    options !! "body" = Some (JStr (pmd_text d)) ∧
    ∀ k, k ≠ "body" → options !! k = options0 !! k.
Proof.
  intros Hjson result plain. subst result plain.
  rewrite !push_handler_run. unfold notificationData_of. rewrite Hjson.
  change (push_tag (JObj (<["body" := JStr (pmd_text d)]> default_notification)))
    with (Some "cricket-match-general").
  change (push_tag (JObj default_notification)) with (Some "cricket-match-general").
  cbn [fst snd w_trace event_succeeded]. split; [done|].
  rewrite !shown_push_show.
  eexists _, _. split; [reflexivity|]. split; [reflexivity|].
  split; [reflexivity|].
  intros k Hk.
  change (push_options rt (JObj (<["body" := JStr (pmd_text d)]> default_notification))
            "cricket-match-general")
    with (<["body" := JStr (pmd_text d)]>
            (push_options rt (JObj default_notification) "cricket-match-general")).
  by rewrite lookup_insert_ne.
Qed.

(** ** notificationclick *)

Section Click.

Variable rt : Runtime.
Implicit Types (cs : CacheStorage) (event : NotificationEvent).

Lemma watch_loop_run data (clientList : list WindowClient) (w : World) :
  watch_loop rt data clientList w =
  match head (filter (at_origin rt) clientList) with
  | Some client =>
      (Fulfilled true,
       {| w_caches := w_caches w;
          w_trace := w_trace w ++
            [EFocus (wc_id client);
             EPostMessage (wc_id client) (show_live_matches data)] |})
  | None => (Fulfilled false, w)
  end.
Proof.
  induction clientList as [|client rest IH]; [done|].
  rewrite filter_cons. cbn [watch_loop].
  destruct (decide (at_origin rt client)) as [Hat|Hat]; unfold at_origin in Hat.
  - rewrite Hat. unfold client_focus, client_postMessage. async_unfold. simpl.
    by rewrite <- app_assoc.
  - apply not_true_is_false in Hat. rewrite Hat. apply IH.
Qed.

(** The whole run of the click handler, branch by branch. *)
Lemma notificationclick_handler_run event cs :
  run (notificationclick_handler rt event) cs =
  let urlToOpen := js_or (get_prop (ne_data event) "url") (JStr "/") in
  let world t := {| w_caches := cs; w_trace := click_prefix event ++ t |} in
  if decide (ne_action event = "watch") then
    match head (filter (at_origin rt) (rt_windows rt)) with
    | Some client =>
        (Fulfilled tt,
         world [EFocus (wc_id client);
                EPostMessage (wc_id client) (show_live_matches (ne_data event))])
    | None =>
        match to_string urlToOpen with
        | Some s =>
            (rt_open rt (JStr (s ++ "?action=watch")),
             world [EOpenWindow (JStr (s ++ "?action=watch"))])
        | None =>
            (Rejected "TypeError: Cannot convert object to primitive value",
             world [])
        end
    end
  else if decide (ne_action event = "remind") then
    (Fulfilled tt,
     world [ELog "⏰ Setting reminder for 5 minutes" "";
            ESetTimeout 300000 (JStr "🔔 Cricket Match Reminder") reminder_options])
  else if decide (ne_action event = "dismiss") then
    (Fulfilled tt, world [ELog "❌ Notification dismissed" ""])
  else
    match filter (λ c, wc_controlled c = true) (rt_windows rt) with
    | client :: _ => (rt_focus rt (wc_id client), world [EFocus (wc_id client)])
    | [] => (rt_open rt urlToOpen, world [EOpenWindow urlToOpen])
    end.
Proof.
  unfold notificationclick_handler, run, click_prefix.
  unfold console_log, mbind, Async_bind. cbv beta.
  unfold emit at 1 2. cbv beta iota. cbn [w_caches w_trace app].
  repeat case_decide.
  - unfold clients_matchAll, mret, Async_ret. cbv beta iota.
    rewrite watch_loop_run. cbn [w_caches w_trace].
    destruct (head (filter (at_origin rt) (rt_windows rt))) as [client|]; [done|].
    destruct (to_string _) as [s|]; [|done].
    unfold clients_openWindow, emit, settle, mbind, Async_bind. done.
  - unfold emit. done.
  - unfold emit. done.
  - unfold clients_matchAll, mret, Async_ret. cbv beta iota.
    destruct (filter _ (rt_windows rt)) as [|client rest].
    + unfold clients_openWindow, emit, settle, mbind, Async_bind. done.
    + unfold client_focus, emit, settle, mbind, Async_bind. done.
Qed.

End Click.

(** C8. Every click closes the notification before anything else the handler
    asks of its surroundings: after the log entry the first call is the
    close, whatever the action and however the calls of the branch settle,
    and the branch does not close it again. *)
Theorem click_closes_first (rt : Runtime) (event : NotificationEvent) (cs : CacheStorage) :
  ∃ branch,
    w_trace (run (notificationclick_handler rt event) cs).2 =
      ELog "🖱️ Notification clicked:" (ne_action event)
      :: ENotificationClose :: branch ∧
    ENotificationClose ∉ branch.
Proof.
  rewrite notificationclick_handler_run. cbv zeta. unfold click_prefix.
  repeat case_decide;
    repeat match goal with
           | |- context [match ?x with _ => _ end] => destruct x
           end;
    cbn [snd w_trace app]; eexists; (split; [reflexivity|]);
    rewrite ?elem_of_cons, elem_of_nil; intuition discriminate.
Qed.

(** C9, as the code has it.  A click on the watch action focuses the first
    window whose URL contains the worker's origin and posts it the message
    with the notification's data, opening nothing.  With no such window it
    opens one window at the string form of the notification's [data.url]
    followed by [?action=watch] (at [/?action=watch] when [data.url] is
    missing or falsy), provided the URL has a string form; when it has none
    the handler throws after closing the notification, and no window is
    focused or opened. *)
Theorem watch_click_one_window (rt : Runtime) (data : JsVal) (cs : CacheStorage) :
  let event := {| ne_action := "watch"; ne_data := data |} in
  let result := run (notificationclick_handler rt event) cs in
  let trace := w_trace result.2 in
  (∀ client, head (filter (at_origin rt) (rt_windows rt)) = Some client →
     trace = (click_prefix event ++
              [EFocus (wc_id client);
               EPostMessage (wc_id client) (show_live_matches data)])%list ∧
     length (filter is_window_effect trace) = 1%nat) ∧
  (filter (at_origin rt) (rt_windows rt) = [] →
     (∀ url target, get_prop data "url" = url → truthy url = true →
        to_string url = Some target →
        trace = (click_prefix event ++
                 [EOpenWindow (JStr (target ++ "?action=watch")%string)])%list ∧
        length (filter is_window_effect trace) = 1%nat) ∧
     (truthy (get_prop data "url") = false →
        trace = (click_prefix event ++ [EOpenWindow (JStr "/?action=watch")])%list ∧
        length (filter is_window_effect trace) = 1%nat) ∧
     (∀ url, get_prop data "url" = url → truthy url = true →
        to_string url = None →
        event_succeeded result.1 = false ∧
        trace = click_prefix event ∧
        filter is_window_effect trace = [])).
Proof.
  intros event result trace. subst trace result.
  rewrite notificationclick_handler_run. cbv zeta.
  rewrite decide_True by done. split.
  - intros client ->. done.
  - intros Hnone. rewrite Hnone. cbn [head ne_data event]. split; [|split].
    + intros url target <- Htruthy Hstr. unfold js_or. rewrite Htruthy, Hstr. done.
    + intros Hfalsy. unfold js_or. rewrite Hfalsy. done.
    + intros url <- Htruthy Hstr. unfold js_or. rewrite Htruthy, Hstr. done.
Qed.

(** ** Instances *)

(** C1 at a failing input.  With the fetch of [/manifest.json] failing,
    [addAll] rejects and nothing is stored, yet the promise handed to
    [waitUntil] fulfils: the rejection ends in the handler that logs
    "installation failed", so the install event succeeds, with an empty
    bucket and without [skipWaiting]. *)
Theorem install_succeeds_despite_failed_fetch :
  let rt := sample_runtime (all_but "https://cricstreamzone.example/manifest.json") [] in
  let result := run (install_handler rt) [] in
  rt_network rt (absolute rt "/manifest.json") = None ∧
  event_succeeded result.1 = true ∧
  bucket CACHE_NAME (w_caches result.2) = Some ∅ ∧
  (ESkipWaiting ∉ w_trace result.2) ∧
  (EError "❌ Service Worker installation failed:"
     "TypeError: Failed to execute 'addAll' on 'Cache': Request failed")
    ∈ w_trace result.2.
Proof.
  intros rt result.
  assert (all_fetched rt (absolute rt <$> urlsToCache) = None) as Hfail
    by (vm_compute; reflexivity).
  split; [vm_compute; reflexivity|].
  split; [apply install_always_succeeds|].
  destruct (install_failure_stores_nothing rt [] Hfail) as [Hbucket Hskip].
  split; [exact Hbucket|]. split; [exact Hskip|].
  subst result. rewrite install_handler_run, Hfail. cbv zeta.
  cbn [snd w_trace]. rewrite !elem_of_app. right. right.
  apply list_elem_of_singleton. reflexivity.
Qed.


Lemma static_miss_caches_basic_200_witness :
  let url := req_url index_request in
  let stale := [("cricstreamzone-v1.0.5", ∅)] in
  storage_match url
    (w_caches (run (fetch_handler (sample_runtime (only url (page "<html>")) [])
                      index_request) stale).2) = Some (page "<html>") ∧
  w_caches (run (fetch_handler (sample_runtime (only url cdn_image) [])
                   index_request) stale).2 = stale ∧
  w_caches (run (fetch_handler (sample_runtime (only url server_error) [])
                   index_request) stale).2 = stale.
Proof.
  intros url stale. split; [|split].
  - destruct (static_miss_caches_basic_200
                (sample_runtime (only url (page "<html>")) []) index_request stale
                (page "<html>")) as (_ & Hstore & _); [reflexivity..|].
    apply Hstore. split; reflexivity.
  - destruct (static_miss_caches_basic_200
                (sample_runtime (only url cdn_image) []) index_request stale
                cdn_image) as (_ & _ & Hkeep); [reflexivity..|].
    apply Hkeep. left. left. reflexivity.
  - destruct (static_miss_caches_basic_200
                (sample_runtime (only url server_error) []) index_request stale
                server_error) as (_ & _ & Hkeep); [reflexivity..|].
    apply Hkeep. right. right. right. discriminate.
Defined.

Lemma static_cache_first_witness :
  let cached := [(CACHE_NAME, {[req_url index_request := page "<html>"]})] in
  let rt := sample_runtime (only (req_url index_request) (page "<html>, newer")) [] in
  respondWith (run (fetch_handler rt index_request) cached).1 = Served (page "<html>") ∧
  w_trace (run (fetch_handler rt index_request) cached).2 = [] ∧
  w_caches (run (fetch_handler rt index_request) cached).2 = cached.
Proof.
  intros cached rt.
  apply (static_cache_first rt index_request cached (page "<html>")).
  - reflexivity.
  - vm_compute. reflexivity.
Defined.



(** C3 as stated fails at a redirected response: a same-origin page of
    status 200 that the fetch reached by following a redirect is stored on a
    static miss, and the next lookup finds it. *)
Lemma static_miss_caches_followed_redirect :
  let rt := sample_runtime (only (req_url index_request) moved_page) [] in
  let result := run (fetch_handler rt index_request) [] in
  is_dynamic index_request = false ∧
  redirected moved_page ∧
  storage_match (req_url index_request) [] = None ∧
  storage_match (req_url index_request) (w_caches result.2) = Some moved_page.
Proof. intros rt result. repeat split; vm_compute; reflexivity. Qed.


(** C6 as stated fails at a payload that decodes but whose match identifier
    has no string form: the handler throws while it builds the tag and no
    notification is shown. *)
Lemma push_decoded_payload_not_always_shown :
  let result :=
    run (push_handler (sample_runtime offline []) (Some unconvertible_payload)) [] in
  is_Some (pmd_json unconvertible_payload) ∧
  event_succeeded result.1 = false ∧
  shown_notifications (w_trace result.2) = [].
Proof.
  intros result. split; [by eexists|]. split; vm_compute; reflexivity.
Qed.

(** C9 as stated fails at a notification whose URL has no string form: with
    no window of the application open, the watch click throws and no window
    is focused or opened. *)
Lemma watch_click_unconvertible_url_opens_nothing :
  let event := {| ne_action := "watch"; ne_data := unconvertible_url_data |} in
  let result := run (notificationclick_handler (sample_runtime offline []) event) [] in
  truthy (get_prop unconvertible_url_data "url") = true ∧
  event_succeeded result.1 = false ∧
  filter is_window_effect (w_trace result.2) = [].
Proof. intros event result. repeat split; vm_compute; reflexivity. Qed.

(** C5 as stated fails when no bucket bears the current name: activate
    deletes the stale bucket and leaves no bucket, not the singleton. *)
Lemma activate_not_always_singleton :
  bucket_names (w_caches (run activate_handler stale_bucket).2) ≠ {[CACHE_NAME]}.
Proof.
  rewrite activate_without_current.
  - intros Hempty. assert (CACHE_NAME ∈ (∅ : gset string)) as Hin
      by (rewrite Hempty; apply elem_of_singleton; reflexivity).
    by apply not_elem_of_empty in Hin.
  - unfold bucket_names, stale_bucket. simpl.
    rewrite elem_of_union, elem_of_singleton, elem_of_empty.
    intros [Heq|[]]. discriminate Heq.
Qed.

Lemma activate_leaves_current_only_witness :
  let cs := [("cricstreamzone-v1.0.5", ∅); (CACHE_NAME, {["/" := page "home"]});
             ("runtime", ∅)] in
  bucket_names (w_caches (run activate_handler cs).2) = {[CACHE_NAME]} ∧
  bucket CACHE_NAME (w_caches (run activate_handler cs).2) = Some {["/" := page "home"]}.
Proof.
  intros cs.
  destruct (activate_leaves_current_only cs) as (Hnames & Hkept & _).
  - unfold bucket_names, cs. simpl.
    rewrite !elem_of_union, !elem_of_singleton. right. left. reflexivity.
  - split; [exact Hnames|]. rewrite Hkept. reflexivity.
Defined.

Lemma push_json_merged_over_defaults_witness :
  let rt := sample_runtime offline [] in
  (∃ options,
     shown_notifications (w_trace (run (push_handler rt (Some match_payload)) []).2) =
       [(JStr "X", JObj options)] ∧
     options !! "tag" = Some (JStr "cricket-match-42")) ∧
  (∃ options,
     shown_notifications (w_trace (run (push_handler rt (Some empty_payload)) []).2) =
       [(JStr "CricStreamZone", JObj options)] ∧
     options !! "tag" = Some (JStr "cricket-match-general")) ∧
  (∃ options,
     shown_notifications (w_trace (run (push_handler rt (Some numeric_payload)) []).2) =
       [(JStr "CricStreamZone", JObj options)] ∧
     options !! "body" = Some (JStr "Stumps") ∧
     options !! "tag" = Some (JStr "cricket-match-1e+21")).
Proof.
  intros rt. split; [|split].
  - destruct (push_json_merged_over_defaults rt [] match_payload
                (JObj (list_to_map [("title", JStr "X"); ("matchId", JStr "42")])) "42")
      as (options & Hshown & _ & _ & _ & Htag); [reflexivity..|].
    exists options. split; [exact Hshown|exact Htag].
  - destruct (push_json_merged_over_defaults rt [] empty_payload (JObj ∅) "general")
      as (options & Hshown & _ & _ & _ & Htag); [reflexivity..|].
    exists options. split; [exact Hshown|exact Htag].
  - destruct (push_json_merged_over_defaults rt [] numeric_payload
                (JObj (list_to_map [
                   ("body", JStr "Stumps"); ("matchId", JNum (10 ^ 21))]))
                "1e+21")
      as (options & Hshown & Hbody & _ & _ & Htag);
      [reflexivity|vm_compute; reflexivity|].
    exists options. split; [exact Hshown|]. split; [exact Hbody|exact Htag].
Defined.

Lemma push_plain_text_body_witness :
  let rt := sample_runtime offline [] in
  event_succeeded (run (push_handler rt (Some text_payload)) []).1 = true ∧
  ∃ options,
    shown_notifications (w_trace (run (push_handler rt (Some text_payload)) []).2) =
      [(JStr "CricStreamZone", JObj options)] ∧
    options !! "body" = Some (JStr "plain text").
Proof.
  intros rt.
  destruct (push_plain_text_body rt [] text_payload)
    as (Hok & options & options0 & Hshown & _ & Hbody & _); [reflexivity|].
  split; [exact Hok|]. exists options. split; [exact Hshown|exact Hbody].
Defined.

Lemma watch_click_one_window_witness :
  let data := JObj (list_to_map [("url", JStr "/live"); ("matchData", JNull)]) in
  let event := {| ne_action := "watch"; ne_data := data |} in
  let open_windows := [foreign_window 1; home_window 2 false; home_window 3 true] in
  w_trace (run (notificationclick_handler (sample_runtime offline open_windows)
                  event) []).2 =
    (click_prefix event ++
     [EFocus 2; EPostMessage 2 (show_live_matches data)])%list ∧
  w_trace (run (notificationclick_handler (sample_runtime offline [foreign_window 1])
                  event) []).2 =
    (click_prefix event ++ [EOpenWindow (JStr "/live?action=watch")])%list.
Proof.
  intros data event open_windows. split.
  - destruct (watch_click_one_window (sample_runtime offline open_windows) data [])
      as [Hfocus _].
    destruct (Hfocus (home_window 2 false)) as [Htrace _]; [reflexivity|].
    exact Htrace.
  - destruct (watch_click_one_window (sample_runtime offline [foreign_window 1])
                data []) as [_ Hnone].
    destruct Hnone as (Hurl & _ & _); [reflexivity|].
    destruct (Hurl (JStr "/live") "/live") as [Htrace _]; [reflexivity..|].
    exact Htrace.
Defined.

(** * Further properties of the handlers *)

(** ** install, beyond the seed's failure *)

Section InstallMore.

Variable rt : Runtime.
Implicit Types (cs : CacheStorage) (urls : list string).

Lemma all_fetched_Some urls :
  (∀ u, u ∈ urls → ∃ r, rt_network rt u = Some r ∧ ok_status r = true) →
  ∃ rs, all_fetched rt urls = Some rs.
Proof.
  induction urls as [|u urls IH]; intros Hall; simpl; [by eexists|].
  destruct (Hall u) as (r & -> & ->); [by left|].
  destruct IH as [rs ->]; [|by eexists].
  intros u' Hu'. apply Hall. by right.
Qed.

Lemma all_fetched_None urls u :
  u ∈ urls →
  (rt_network rt u = None ∨ ∃ r, rt_network rt u = Some r ∧ ok_status r = false) →
  all_fetched rt urls = None.
Proof.
  induction urls as [|u' urls IH]; intros Hin Hbad; [by apply elem_of_nil in Hin|].
  simpl. apply elem_of_cons in Hin as [<-|Hin].
  - destruct Hbad as [->|(r & -> & ->)]; done.
  - destruct (rt_network rt u') as [r'|]; [|done].
    destruct (ok_status r'); [|done]. by rewrite IH.
Qed.

Lemma all_fetched_inv urls rs :
  all_fetched rt urls = Some rs →
  ∀ u, u ∈ urls → ∃ r, rt_network rt u = Some r ∧ ok_status r = true.
Proof.
  revert rs. induction urls as [|u' urls IH]; intros rs Hall u Hin;
    [by apply elem_of_nil in Hin|].
  simpl in Hall.
  destruct (rt_network rt u') as [r'|] eqn:Hnet; [|done].
  destruct (ok_status r') eqn:Hok; [|done].
  destruct (all_fetched rt urls) as [rs'|] eqn:Hrest; [|done].
  apply elem_of_cons in Hin as [->|Hin]; [by exists r'|].
  by apply (IH rs').
Qed.

Lemma all_fetched_pairs urls rs :
  all_fetched rt urls = Some rs →
  ∀ p, p ∈ rs → rt_network rt p.1 = Some p.2.
Proof.
  revert rs. induction urls as [|u urls IH]; intros rs; simpl.
  - intros [= <-] p Hp. by apply elem_of_nil in Hp.
  - destruct (rt_network rt u) as [r|] eqn:Hnet; [|done].
    destruct (ok_status r); [|done].
    destruct (all_fetched rt urls) as [rs'|]; [|done].
    intros [= <-] p Hp. apply elem_of_cons in Hp as [->|Hp]; [done|].
    by apply (IH rs').
Qed.

(** Putting a list of pairs one after the other leaves, under each key of
    the list, the value every pair of that key agrees on. *)
Lemma foldl_insert_lookup (rs : list (string * Response)) (c : Cache) u r :
  u ∈ rs.*1 →
  (∀ p, p ∈ rs → p.1 = u → p.2 = r) →
  foldl (λ c p, <[p.1 := p.2]> c) c rs !! u = Some r.
Proof.
  assert (∀ c : Cache,
            (u ∈ rs.*1 ∨ c !! u = Some r) →
            (∀ p, p ∈ rs → p.1 = u → p.2 = r) →
            foldl (λ c p, <[p.1 := p.2]> c) c rs !! u = Some r) as Hgen.
  { induction rs as [|p rs IH]; intros c' Hin Hagree; simpl.
    - destruct Hin as [Hin|Hc]; [by apply elem_of_nil in Hin|done].
    - apply IH; [|intros q Hq; apply Hagree; by right].
      destruct (decide (p.1 = u)) as [Hp|Hp].
      + right. rewrite <- Hp at 1. rewrite lookup_insert_eq. f_equal.
        apply Hagree; [by left|done].
      + destruct Hin as [Hin|Hc].
        * simpl in Hin. apply elem_of_cons in Hin as [Heq|Hin]; [congruence|by left].
        * right. by rewrite lookup_insert_ne. }
  intros Hin. apply Hgen. by left.
Qed.

Lemma foldl_insert_lookup_other (rs : list (string * Response)) (c : Cache) key :
  key ∉ rs.*1 →
  foldl (λ c p, <[p.1 := p.2]> c) c rs !! key = c !! key.
Proof.
  revert c. induction rs as [|p rs IH]; intros c Hnot; [done|].
  simpl in *. apply not_elem_of_cons in Hnot as [Hne Hnot].
  rewrite IH by done. by rewrite lookup_insert_ne.
Qed.

Lemma bucket_foldl_put_ne name name' (rs : list (string * Response)) cs :
  name' ≠ name →
  bucket name' (foldl (λ cs p, storage_put name p.1 p.2 cs) cs rs) = bucket name' cs.
Proof.
  intros Hne. revert cs. induction rs as [|p rs IH]; intros cs; [done|].
  simpl. rewrite IH. by apply bucket_storage_put_ne.
Qed.

Lemma bucket_opened cs name :
  bucket name (opened name cs) = Some (default ∅ (bucket name cs)).
Proof.
  unfold opened. destruct (bucket name cs) as [c|] eqn:Hb; simpl.
  - by rewrite Hb.
  - rewrite bucket_app, Hb. simpl. by rewrite decide_True.
Qed.

Lemma bucket_opened_ne cs name name' :
  name' ≠ name → bucket name' (opened name cs) = bucket name' cs.
Proof.
  intros Hne. unfold opened. destruct (bucket name cs); [done|].
  rewrite bucket_app. destruct (bucket name' cs); [done|].
  simpl. by rewrite decide_False.
Qed.

(** The bucket of the current name once the install handler has run. *)
Lemma install_bucket cs :
  bucket CACHE_NAME (w_caches (run (install_handler rt) cs).2) =
  Some (match all_fetched rt (absolute rt <$> urlsToCache) with
        | Some rs => foldl (λ c p, <[p.1 := p.2]> c)
                       (default ∅ (bucket CACHE_NAME cs)) rs
        | None => default ∅ (bucket CACHE_NAME cs)
        end).
Proof.
  rewrite install_handler_run. cbv zeta.
  destruct (all_fetched rt (absolute rt <$> urlsToCache)) as [rs|];
    cbn [snd w_caches].
  - apply bucket_foldl_put, bucket_opened.
  - apply bucket_opened.
Qed.

End InstallMore.

(** What the current bucket stores for a manifest URL after an install that
    fetched every entry. *)
Lemma install_stored_manifest (rt : Runtime) (cs : CacheStorage) (u : string) r :
  manifest_fetched rt →
  u ∈ urlsToCache →
  rt_network rt (absolute rt u) = Some r →
  stored_at CACHE_NAME (absolute rt u) (w_caches (run (install_handler rt) cs).2) =
  Some r.
Proof.
  intros Hfetched Hu Hnet.
  destruct (all_fetched_Some rt (absolute rt <$> urlsToCache)) as [rs Hrs].
  { intros u' (u0 & -> & Hu0)%list_elem_of_fmap. by apply Hfetched. }
  unfold stored_at. rewrite install_bucket, Hrs. cbn [mbind option_bind].
  apply foldl_insert_lookup.
  - rewrite (all_fetched_urls rt _ _ Hrs). apply list_elem_of_fmap. by exists u.
  - intros p Hp Hkey. pose proof (all_fetched_pairs rt _ _ Hrs p Hp) as Hp'.
    rewrite Hkey, Hnet in Hp'. by injection Hp'.
Qed.

(** X1. When every manifest entry is answered with an ok status other than
    206, the install succeeds, [skipWaiting] is called, and the current bucket holds under
    each manifest URL the very response the network gave for it. *)
Theorem install_stores_every_manifest_entry (rt : Runtime) (cs : CacheStorage) :
  manifest_fetched rt →
  let result := run (install_handler rt) cs in
  event_succeeded result.1 = true ∧
  ESkipWaiting ∈ w_trace result.2 ∧
  ∀ u, u ∈ urlsToCache →
    is_Some (rt_network rt (absolute rt u)) ∧
    stored_at CACHE_NAME (absolute rt u) (w_caches result.2) =
      rt_network rt (absolute rt u).
Proof.
  intros Hfetched result.
  destruct (all_fetched_Some rt (absolute rt <$> urlsToCache)) as [rs Hrs].
  { intros u' (u & -> & Hu)%list_elem_of_fmap. by apply Hfetched. }
  subst result. split; [apply install_always_succeeds|].
  split; [by destruct (install_success_stores_manifest rt cs rs Hrs)|].
  intros u Hu. destruct (Hfetched u Hu) as (r & Hnet & _).
  split; [by rewrite Hnet|].
  rewrite Hnet. by apply install_stored_manifest.
Qed.

(** X2. The promise the install handler hands to [waitUntil] never rejects,
    whatever the network does; [skipWaiting] is called exactly when every
    manifest entry was answered with an ok status other than 206. *)
Theorem install_never_rejects (rt : Runtime) (cs : CacheStorage) :
  let result := run (install_handler rt) cs in
  event_succeeded result.1 = true ∧
  (ESkipWaiting ∈ w_trace result.2 ↔ manifest_fetched rt).
Proof.
  intros result. subst result. split; [apply install_always_succeeds|].
  destruct (all_fetched rt (absolute rt <$> urlsToCache)) as [rs|] eqn:Hrs.
  - split.
    + intros _ u Hu. apply (all_fetched_inv rt _ rs Hrs).
      apply list_elem_of_fmap. by exists u.
    + intros _. by destruct (install_success_stores_manifest rt cs rs Hrs).
  - split.
    + intros Hskip. by destruct (install_failure_stores_nothing rt cs Hrs).
    + intros Hfetched.
      destruct (all_fetched_Some rt (absolute rt <$> urlsToCache)) as [rs' Hrs'];
        [|congruence].
      intros u' (u & -> & Hu)%list_elem_of_fmap. by apply Hfetched.
Qed.

(** X3. One manifest entry that the network does not answer, or answers with
    a status outside 200-299, is enough for nothing to be stored: every
    bucket holds what it held, the current bucket being created empty when
    it did not exist; [skipWaiting] is not called and the failure is
    logged. *)
Theorem install_failure_is_atomic (rt : Runtime) (cs : CacheStorage) (u : string) :
  u ∈ urlsToCache →
  (rt_network rt (absolute rt u) = None ∨
   ∃ r, rt_network rt (absolute rt u) = Some r ∧ ok_status r = false) →
  let result := run (install_handler rt) cs in
  (∀ name key, stored_at name key (w_caches result.2) = stored_at name key cs) ∧
  bucket CACHE_NAME (w_caches result.2) = Some (default ∅ (bucket CACHE_NAME cs)) ∧
  (ESkipWaiting ∉ w_trace result.2) ∧
  ∃ e, EError "❌ Service Worker installation failed:" e ∈ w_trace result.2.
Proof.
  intros Hu Hbad result. subst result.
  assert (all_fetched rt (absolute rt <$> urlsToCache) = None) as Hnone.
  { apply (all_fetched_None rt _ (absolute rt u)); [|done].
    apply list_elem_of_fmap. by exists u. }
  destruct (install_failure_stores_nothing rt cs Hnone) as [Hb Hskip].
  split; [|split; [done|split; [done|]]].
  - intros name key. unfold stored_at.
    destruct (decide (name = CACHE_NAME)) as [->|Hne].
    + rewrite Hb. simpl. destruct (bucket CACHE_NAME cs); [done|].
      simpl. apply lookup_empty.
    + rewrite install_handler_run, Hnone. cbv zeta. cbn [snd w_caches].
      by rewrite bucket_opened_ne.
  - rewrite install_handler_run, Hnone. cbv zeta. cbn [snd w_trace].
    eexists. rewrite !elem_of_app. right. right.
    apply list_elem_of_singleton. reflexivity.
Qed.

(** X4. The install handler only adds to the current bucket: a bucket of
    another name is left as it was, and the current bucket keeps every entry
    whose identity is not a manifest URL. *)
Theorem install_only_adds (rt : Runtime) (cs : CacheStorage) (name key : string) :
  name ≠ CACHE_NAME ∨ key ∉ absolute rt <$> urlsToCache →
  stored_at name key (w_caches (run (install_handler rt) cs).2) =
  stored_at name key cs.
Proof.
  intros Hother. unfold stored_at.
  destruct (decide (name = CACHE_NAME)) as [->|Hne].
  - destruct Hother as [?|Hkey]; [done|].
    rewrite install_bucket. cbn [mbind option_bind].
    destruct (all_fetched rt (absolute rt <$> urlsToCache)) as [rs|] eqn:Hrs.
    + rewrite foldl_insert_lookup_other
        by (by rewrite (all_fetched_urls rt _ _ Hrs)).
      destruct (bucket CACHE_NAME cs); [done|]. apply lookup_empty.
    + destruct (bucket CACHE_NAME cs); [done|]. apply lookup_empty.
  - rewrite install_handler_run. cbv zeta.
    destruct (all_fetched rt (absolute rt <$> urlsToCache)) as [rs|];
      cbn [snd w_caches].
    + by rewrite bucket_foldl_put_ne, bucket_opened_ne.
    + by rewrite bucket_opened_ne.
Qed.

(** ** activate and the life cycle *)

Lemma filter_current_idemp (cs : CacheStorage) :
  filter (λ p, p.1 = CACHE_NAME) (filter (λ p, p.1 = CACHE_NAME) cs) =
  filter (λ p, p.1 = CACHE_NAME) cs.
Proof.
  rewrite list_filter_filter. apply list_filter_iff. intros p. tauto.
Qed.

Lemma names_filter_current (cs : CacheStorage) :
  filter (λ n, n ≠ CACHE_NAME) ((filter (λ p, p.1 = CACHE_NAME) cs).*1) = [].
Proof.
  induction cs as [|[n c] cs IH]; [done|].
  rewrite filter_cons. cbn [fst].
  destruct (decide (n = CACHE_NAME)) as [->|Hne]; [|done].
  rewrite fmap_cons, filter_cons_False; [done|].
  intros Hne. by apply Hne.
Qed.

(** X5. Activating again changes nothing: the second run deletes no bucket,
    logs no deletion and leaves the storage of the first run. *)
Theorem activate_is_idempotent (cs : CacheStorage) :
  let once := (run activate_handler cs).2 in
  let twice := (run activate_handler (w_caches once)).2 in
  w_caches twice = w_caches once ∧
  w_trace twice =
    [ELog "🚀 Service Worker activating..." "";
     ELog "✅ Service Worker activated" ""; EClientsClaim].
Proof.
  intros once twice. subst once twice.
  rewrite !activate_handler_run. cbn [snd w_caches w_trace].
  split; [apply filter_current_idemp|].
  by rewrite names_filter_current.
Qed.

(** The lookup of the handler after activation finds what the current bucket
    held before it. *)
Lemma storage_match_activated (cs : CacheStorage) (c : Cache) key r :
  bucket CACHE_NAME cs = Some c →
  c !! key = Some r →
  storage_match key (filter (λ p, p.1 = CACHE_NAME) cs) = Some r.
Proof.
  intros Hb Hc. induction cs as [|[n c'] cs IH]; [done|].
  rewrite filter_cons. simpl in *.
  destruct (decide (n = CACHE_NAME)) as [->|Hne]; simpl.
  - injection Hb as ->. by rewrite Hc.
  - by apply IH.
Qed.

(** X6. Offline after install and activation: when the install fetched every
    manifest entry with an ok status other than 206, then after activation a static request for a manifest
    URL is answered with the response fetched at install, without any call
    to the network, whatever the network then is. *)
Theorem manifest_served_from_cache_after_activation
    (rt rt' : Runtime) (cs : CacheStorage) (request : Request) (u : string) :
  manifest_fetched rt →
  u ∈ urlsToCache →
  req_url request = absolute rt u →
  is_dynamic request = false →
  let installed := w_caches (run (install_handler rt) cs).2 in
  let activated := w_caches (run activate_handler installed).2 in
  let result := run (fetch_handler rt' request) activated in
  is_Some (rt_network rt (absolute rt u)) ∧
  result.1 = Fulfilled (rt_network rt (absolute rt u)) ∧
  w_trace result.2 = [] ∧
  w_caches result.2 = activated.
Proof.
  intros Hfetched Hu Hurl Hstatic installed activated result.
  destruct (Hfetched u Hu) as (r & Hnet & _).
  pose proof (install_stored_manifest rt cs u r Hfetched Hu Hnet) as Hat.
  fold installed in Hat. rewrite Hnet. split; [by eexists|].
  unfold stored_at in Hat.
  destruct (bucket CACHE_NAME installed) as [c|] eqn:Hb; [|done].
  simpl in Hat.
  subst result activated. rewrite activate_handler_run. cbn [snd w_caches].
  rewrite (fetch_handler_static_hit rt' request _ r); [done..|].
  rewrite Hurl. by apply (storage_match_activated installed c).
Qed.

(** ** fetch, beyond the two strategies *)

Section FetchMore.

Implicit Types (cs : CacheStorage) (request : Request) (s needle : string).

Lemma prefix_spec needle s :
  String.prefix needle s = true ↔ ∃ post, s = needle ++ post.
Proof.
  revert s. induction needle as [|a needle IH]; intros s.
  - split; [intros _; by exists s|by destruct s].
  - destruct s as [|b s]; simpl.
    + split; [done|]. by intros [post [=]].
    + destruct (Ascii.ascii_dec a b) as [->|Hne].
      * rewrite IH. split.
        -- intros [post ->]. by exists post.
        -- intros [post [= ->]]. by exists post.
      * split; [done|]. intros [post [= -> _]]. done.
Qed.

(** [includes] is the substring test. *)
Lemma includes_spec s needle :
  includes s needle = true ↔ ∃ pre post, s = pre ++ needle ++ post.
Proof.
  induction s as [|a s IH].
  - cbn [includes]. destruct (String.prefix needle "") eqn:Hp.
    + apply prefix_spec in Hp as [post Hp]. split; [|done].
      intros _. exists "", post. exact Hp.
    + split; [done|]. intros (pre & post & Heq).
      destruct pre; [|done]. cbn [String.append] in Heq.
      assert (String.prefix needle "" = true) as Hp'.
      { apply prefix_spec. exists post. exact Heq. }
      congruence.
  - cbn [includes]. destruct (String.prefix needle (String a s)) eqn:Hp.
    + apply prefix_spec in Hp as [post Hp]. split; [|done].
      intros _. exists "", post. exact Hp.
    + rewrite IH. split.
      * intros (pre & post & ->). exists (String a pre), post. reflexivity.
      * intros (pre & post & Heq). destruct pre as [|b pre].
        -- cbn [String.append] in Heq.
           assert (String.prefix needle (String a s) = true) as Hp'.
           { apply prefix_spec. exists post. exact Heq. }
           congruence.
        -- cbn [String.append] in Heq. injection Heq as -> ->.
           exists pre, post. reflexivity.
Qed.

Variable rt : Runtime.

(** What the handler leaves in the storage, in each of its cases. *)
Lemma fetch_handler_caches request cs :
  w_caches (run (fetch_handler rt request) cs).2 = cs ∨
  ∃ response, rt_network rt (req_url request) = Some response ∧
    w_caches (run (fetch_handler rt request) cs).2 =
      open_put CACHE_NAME (req_url request) response cs.
Proof.
  destruct (is_dynamic request) eqn:Hdyn.
  - rewrite fetch_handler_dynamic by done.
    destruct (rt_network rt (req_url request)) as [response|]; [|by left].
    right. by exists response.
  - destruct (storage_match (req_url request) cs) as [stored|] eqn:Hm.
    + rewrite (fetch_handler_static_hit rt request cs stored) by done. by left.
    + rewrite fetch_handler_static_miss by done.
      destruct (rt_network rt (req_url request)) as [response|]; [|by left].
      simpl. destruct (not_cacheable response); [by left|].
      right. by exists response.
Qed.

Lemma stored_at_open_put_ne cs name key r name' key' :
  name' ≠ name ∨ key' ≠ key →
  stored_at name' key' (open_put name key r cs) = stored_at name' key' cs.
Proof.
  intros Hother. unfold open_put.
  case_decide; [apply stored_at_opened|].
  unfold stored_at.
  destruct (decide (name' = name)) as [->|Hne].
  - destruct Hother as [?|Hkey]; [done|].
    rewrite bucket_storage_put, bucket_opened.
    cbn [fmap option_fmap option_map mbind option_bind].
    rewrite lookup_insert_ne by done.
    destruct (bucket name cs); [done|]. apply lookup_empty.
  - by rewrite bucket_storage_put_ne, bucket_opened_ne.
Qed.

End FetchMore.

(** X7. A request is classified as dynamic exactly when its hostname contains
    [script.google.com] or its pathname contains [api], anywhere in it. *)
Theorem is_dynamic_substring (request : Request) :
  is_dynamic request = true ↔
  (∃ pre post, req_hostname request = pre ++ "script.google.com" ++ post) ∨
  (∃ pre post, req_pathname request = pre ++ "api" ++ post).
Proof.
  unfold is_dynamic. rewrite orb_true_iff, !includes_spec. done.
Qed.

(** X8. A static request that is not cached and cannot be fetched is answered
    with a network error: there is no fallback, the storage is left as it
    was, and the one call made is the fetch. *)
Theorem static_miss_offline_fails
    (rt : Runtime) (request : Request) (cs : CacheStorage) :
  is_dynamic request = false →
  storage_match (req_url request) cs = None →
  rt_network rt (req_url request) = None →
  let result := run (fetch_handler rt request) cs in
  respondWith result.1 = NetworkError ∧
  w_caches result.2 = cs ∧
  w_trace result.2 = [ENetFetch (req_url request)].
Proof.
  intros Hstatic Hmiss Hnet result. subst result.
  by rewrite fetch_handler_static_miss, Hnet.
Qed.

(** X9. The fetch handler writes at most one entry, that of the request in
    the current bucket: what any other bucket stores, and what the current
    bucket stores for any other identity, is left as it was, and the entry
    of the request, once there, is never removed. *)
Theorem fetch_handler_writes_own_entry_only
    (rt : Runtime) (request : Request) (cs : CacheStorage) :
  let cs' := w_caches (run (fetch_handler rt request) cs).2 in
  (∀ name key, name ≠ CACHE_NAME ∨ key ≠ req_url request →
     stored_at name key cs' = stored_at name key cs) ∧
  (is_Some (stored_at CACHE_NAME (req_url request) cs) →
   is_Some (stored_at CACHE_NAME (req_url request) cs')).
Proof.
  intros cs'. subst cs'.
  destruct (fetch_handler_caches rt request cs) as [->|(response & _ & ->)].
  - done.
  - split.
    + intros name key Hother. by apply stored_at_open_put_ne.
    + intros Hthere.
      destruct (decide (resp_status response = 206)) as [Hpartial|Hfull].
      * rewrite open_put_partial by done. by rewrite stored_at_opened.
      * unfold stored_at. rewrite bucket_open_put by done.
        cbn [mbind option_bind]. rewrite lookup_insert_eq. by eexists.
Qed.

(** X10. The handler asks the network at most once, and only for the URL of
    the request: it makes no call at all for a static request that is
    cached, and exactly the one fetch otherwise. *)
Theorem fetch_handler_fetches_at_most_once
    (rt : Runtime) (request : Request) (cs : CacheStorage) :
  w_trace (run (fetch_handler rt request) cs).2 =
  if negb (is_dynamic request) && bool_decide (is_Some (storage_match (req_url request) cs))
  then [] else [ENetFetch (req_url request)].
Proof.
  destruct (is_dynamic request) eqn:Hdyn; simpl.
  - rewrite fetch_handler_dynamic by done.
    by destruct (rt_network rt (req_url request)).
  - destruct (storage_match (req_url request) cs) as [stored|] eqn:Hm.
    + rewrite (fetch_handler_static_hit rt request cs stored) by done.
      by rewrite bool_decide_eq_true_2.
    + rewrite fetch_handler_static_miss by done.
      rewrite bool_decide_eq_false_2 by (by intros [? ?]).
      by destruct (rt_network rt (req_url request)).
Qed.


(** X12. A static miss answered with a same-origin response of status 200 is
    a hit from then on: the next request for the URL gets the same response
    with no call to the network, whatever the network then is. *)
Theorem static_miss_then_hit
    (rt rt' : Runtime) (request : Request) (cs : CacheStorage) (response : Response) :
  is_dynamic request = false →
  storage_match (req_url request) cs = None →
  rt_network rt (req_url request) = Some response →
  resp_type response = basic →
  resp_status response = 200 →
  let first := run (fetch_handler rt request) cs in
  let second := run (fetch_handler rt' request) (w_caches first.2) in
  respondWith first.1 = Served response ∧
  respondWith second.1 = Served response ∧
  w_trace second.2 = [] ∧
  w_caches second.2 = w_caches first.2.
Proof.
  intros Hstatic Hmiss Hnet Htype Hstatus first second. subst first second.
  assert (not_cacheable response = false) as Hnc
    by (by apply not_cacheable_false).
  rewrite (fetch_handler_static_miss rt request cs Hstatic Hmiss), Hnet, Hnc.
  cbn [fst snd w_caches]. split; [done|].
  rewrite (fetch_handler_static_hit rt' request _ response); [done..|].
  apply storage_match_open_put; [|done]. by rewrite Hstatus.
Qed.

(** ** push, beyond the merge *)

(** X13. A push whose tag can be computed calls [showNotification] once,
    leaves the cache storage alone and never fails the event: when the
    display is refused the error is logged, otherwise the success is. *)
Theorem push_display_failure_is_logged
    (rt : Runtime) (data : option PushMessageData) (cs : CacheStorage) :
  is_Some (push_tag (notificationData_of data)) →
  let result := run (push_handler rt data) cs in
  ∃ title options,
    shown_notifications (w_trace result.2) = [(title, options)] ∧
    event_succeeded result.1 = true ∧
    w_caches result.2 = cs ∧
    w_trace result.2 =
      [ELog "📬 Push notification received" "";
       EShowNotification title options;
       match rt_show rt title options with
       | Fulfilled _ => ELog "✅ Notification shown successfully" ""
       | Rejected e => EError "❌ Failed to show notification:" e
       end].
Proof.
  intros [tag Htag] result. subst result.
  rewrite push_handler_run, Htag. cbn [fst snd w_caches w_trace event_succeeded].
  rewrite shown_push_show. by eexists _, _.
Qed.

(** X14. Whatever the payload, a notification the push handler shows has the
    three actions watch, remind and dismiss, the fixed vibration pattern, and
    is sticky, audible and renotifying: no field of the payload reaches
    these options. *)
Theorem push_fixed_options
    (rt : Runtime) (data : option PushMessageData) (cs : CacheStorage)
    (title : JsVal) (options : gmap string JsVal) :
  shown_notifications (w_trace (run (push_handler rt data) cs).2) =
    [(title, JObj options)] →
  options !! "actions" = Some push_actions ∧
  options !! "vibrate" = Some (JArr [JNum 200; JNum 100; JNum 200; JNum 100; JNum 200]) ∧
  options !! "requireInteraction" = Some (JBool true) ∧
  options !! "silent" = Some (JBool false) ∧
  options !! "renotify" = Some (JBool true).
Proof.
  rewrite push_handler_run.
  destruct (push_tag (notificationData_of data)) as [tag|]; cbn [snd w_trace].
  - rewrite shown_push_show. intros [= _ <-]. repeat split; reflexivity.
  - done.
Qed.

(** X15. A push whose match identifier is an object with a [toString]
    property of its own cannot build its tag: the handler throws before it
    shows anything, and the only call it has made is the log entry. *)
Theorem push_unconvertible_match_id_throws
    (rt : Runtime) (cs : CacheStorage) (d : PushMessageData) (pushData : JsVal)
    (o : gmap string JsVal) :
  pmd_json d = Some pushData →
  own_props pushData !! "matchId" = Some (JObj o) →
  is_Some (o !! "toString") →
  let result := run (push_handler rt (Some d)) cs in
  event_succeeded result.1 = false ∧
  w_trace result.2 = [ELog "📬 Push notification received" ""] ∧
  shown_notifications (w_trace result.2) = [].
Proof.
  intros Hjson Hid [v Hv] result. subst result.
  assert (push_tag (notificationData_of (Some d)) = None) as Htag.
  { unfold push_tag, notificationData_of. rewrite Hjson, get_prop_spread2, Hid.
    unfold js_or. simpl. by rewrite Hv. }
  by rewrite push_handler_run, Htag.
Qed.

(** The [data] of a notification the push handler shows. *)
Lemma push_notification_data (rt : Runtime) (nd : JsVal) (tag : string) :
  get_prop (notification_data (push_options rt nd tag)) "url" =
  js_or (get_prop nd "url") (JStr "/").
Proof. reflexivity. Qed.

Lemma js_or_truthy (v : JsVal) : truthy (js_or v (JStr "/")) = true.
Proof. unfold js_or. by destruct (truthy v) eqn:Hv. Qed.

(** X16. From push to click: the notification shown for a decoded payload,
    clicked on watch while no window of the application is open, opens one
    window at the string form of the payload's [url] followed by
    [?action=watch], and at [/?action=watch] when the payload has no [url]
    or a falsy one; when the payload's [url] is truthy and has no string
    form, the click throws after closing the notification and opens no
    window. *)
Theorem pushed_notification_watch_opens_payload_url
    (rt rt' : Runtime) (cs cs' : CacheStorage) (d : PushMessageData)
    (pushData title : JsVal) (options : gmap string JsVal) :
  pmd_json d = Some pushData →
  shown_notifications (w_trace (run (push_handler rt (Some d)) cs).2) =
    [(title, JObj options)] →
  filter (at_origin rt') (rt_windows rt') = [] →
  let url := default JUndefined (own_props pushData !! "url") in
  let event := {| ne_action := "watch"; ne_data := notification_data options |} in
  let clicked := run (notificationclick_handler rt' event) cs' in
  match (if truthy url then to_string url else Some "/") with
  | Some target =>
      w_trace clicked.2 =
        (click_prefix event ++
         [EOpenWindow (JStr (target ++ "?action=watch")%string)])%list
  | None =>
      event_succeeded clicked.1 = false ∧
      w_trace clicked.2 = click_prefix event
  end.
Proof.
  intros Hjson Hshown Hnone url event clicked. subst clicked.
  rewrite push_handler_run in Hshown.
  destruct (push_tag (notificationData_of (Some d))) as [tag|];
    cbn [snd w_trace] in Hshown; [|done].
  rewrite shown_push_show in Hshown. injection Hshown as _ <-.
  subst event. rewrite notificationclick_handler_run. cbv zeta.
  rewrite decide_True by done. rewrite Hnone. cbn [head ne_data].
  rewrite push_notification_data.
  unfold notificationData_of. rewrite Hjson, get_prop_spread2.
  change (default_notification !! "url") with (@None JsVal). cbn [default].
  fold url. unfold js_or at 1. rewrite js_or_truthy.
  unfold js_or. destruct (truthy url) eqn:Htruthy; rewrite ?Htruthy; [|done].
  destruct (to_string url) as [target|] eqn:Hstr; rewrite ?Hstr; [done|].
  cbn [fst snd w_trace event_succeeded]. by rewrite app_nil_r.
Qed.

(** ** notificationclick, beyond the watch action *)

(** X17. A click on remind sets one timer of 300000 ms for the reminder
    notification and does nothing else: no notification is shown at once, no
    window is focused or opened, and the handler does not fail. *)
Theorem remind_click_sets_one_timer
    (rt : Runtime) (data : JsVal) (cs : CacheStorage) :
  let event := {| ne_action := "remind"; ne_data := data |} in
  let result := run (notificationclick_handler rt event) cs in
  result.1 = Fulfilled tt ∧
  w_trace result.2 =
    (click_prefix event ++
     [ELog "⏰ Setting reminder for 5 minutes" "";
      ESetTimeout 300000 (JStr "🔔 Cricket Match Reminder") reminder_options])%list ∧
  shown_notifications (w_trace result.2) = [] ∧
  filter is_window_effect (w_trace result.2) = [].
Proof.
  intros event result. subst result event.
  rewrite notificationclick_handler_run. cbv zeta.
  rewrite decide_False by done. rewrite decide_True by done. done.
Qed.

(** X18. A click with any action other than watch, remind and dismiss (a
    click on the body has the empty action) focuses the first window the
    worker controls and opens nothing; when it controls no window, also when
    uncontrolled windows of the application are open, it opens the
    notification's URL as it is.  No message is posted, and the outcome is
    that of the focus or of the opening. *)
Theorem default_click_focuses_controlled_or_opens
    (rt : Runtime) (event : NotificationEvent) (cs : CacheStorage) :
  ne_action event ≠ "watch" →
  ne_action event ≠ "remind" →
  ne_action event ≠ "dismiss" →
  let result := run (notificationclick_handler rt event) cs in
  let controlled := filter (λ c, wc_controlled c = true) (rt_windows rt) in
  (∀ client rest, controlled = client :: rest →
     result.1 = rt_focus rt (wc_id client) ∧
     w_trace result.2 = (click_prefix event ++ [EFocus (wc_id client)])%list) ∧
  (controlled = [] →
     let urlToOpen := js_or (get_prop (ne_data event) "url") (JStr "/") in
     result.1 = rt_open rt urlToOpen ∧
     w_trace result.2 = (click_prefix event ++ [EOpenWindow urlToOpen])%list).
Proof.
  intros Hwatch Hremind Hdismiss result controlled. subst result controlled.
  rewrite notificationclick_handler_run. cbv zeta.
  rewrite !decide_False by done. split.
  - by intros client rest ->.
  - by intros ->.
Qed.

(** X19. On watch, the focus is not waited for: with a window of the
    application open, the handler's promise fulfils and the message is
    posted even when focusing the window is refused. *)
Theorem watch_click_ignores_focus_failure
    (rt : Runtime) (data : JsVal) (cs : CacheStorage) (client : WindowClient) :
  head (filter (at_origin rt) (rt_windows rt)) = Some client →
  let event := {| ne_action := "watch"; ne_data := data |} in
  let result := run (notificationclick_handler rt event) cs in
  result.1 = Fulfilled tt ∧
  EPostMessage (wc_id client) (show_live_matches data) ∈ w_trace result.2.
Proof.
  intros Hhead event result. subst result event.
  rewrite notificationclick_handler_run. cbv zeta.
  rewrite decide_True by done. rewrite Hhead. split; [done|].
  cbn [snd w_trace ne_data]. rewrite elem_of_app. right.
  rewrite !elem_of_cons. right. by left.
Qed.

(** X20. Whatever the action, the notification data and the runtime, a click
    focuses or opens at most one window, shows no notification, and leaves
    the cache storage as it was. *)
Theorem click_touches_at_most_one_window
    (rt : Runtime) (event : NotificationEvent) (cs : CacheStorage) :
  let result := run (notificationclick_handler rt event) cs in
  (length (filter is_window_effect (w_trace result.2)) ≤ 1)%nat ∧
  shown_notifications (w_trace result.2) = [] ∧
  w_caches result.2 = cs.
Proof.
  intros result. subst result.
  rewrite notificationclick_handler_run. cbv zeta. unfold click_prefix.
  repeat case_decide;
    repeat match goal with
           | |- context [match ?x with _ => _ end] => destruct x
           end;
    cbn [snd w_trace w_caches app]; (split; [|done]);
    vm_compute; lia.
Qed.

(** ** message *)

Lemma equals_string_spec (v : JsVal) (s : string) :
  equals_string v s = true ↔ v = JStr s.
Proof.
  destruct v; simpl; try (split; [done|by intros [=]]).
  rewrite String.eqb_eq. split; [by intros ->|by intros [= ->]].
Qed.

Lemma get_prop_string_truthy (data : JsVal) (k s : string) :
  get_prop data k = JStr s → truthy data = true.
Proof. by destruct data. Qed.

(** The test of each branch of the message handler. *)
Lemma message_test (data : JsVal) (s : string) :
  truthy data && equals_string (get_prop data "action") s = true ↔
  get_prop data "action" = JStr s.
Proof.
  rewrite andb_true_iff, equals_string_spec. split; [by intros [_ ?]|].
  intros Hs. split; [by apply (get_prop_string_truthy data "action" s)|done].
Qed.

(** X21. The message handler logs every message and knows two actions:
    [skipWaiting] is called exactly for a message whose [action] is the
    string [skipWaiting], a timer is set exactly for one whose [action] is
    the string [scheduleNotification], and any other message (one that is no
    object, or has no or another [action]) gets the log entry only. *)
Theorem message_handler_knows_two_actions (data : JsVal) :
  let calls := message_handler data in
  head calls = Some (MLog "💬 Message received:" data) ∧
  (MSkipWaiting ∈ calls ↔ get_prop data "action" = JStr "skipWaiting") ∧
  ((∃ delay title options, MSetTimeout delay title options ∈ calls) ↔
   get_prop data "action" = JStr "scheduleNotification") ∧
  (get_prop data "action" ≠ JStr "skipWaiting" →
   get_prop data "action" ≠ JStr "scheduleNotification" →
   calls = [MLog "💬 Message received:" data]).
Proof.
  intros calls. subst calls. unfold message_handler.
  destruct (truthy data && equals_string (get_prop data "action") "skipWaiting")
    eqn:Hskip.
  - apply message_test in Hskip. rewrite Hskip.
    split; [done|]. split; [|split].
    + split; [done|]. intros _. right. by left.
    + split; [|done]. intros (delay & title & options & Hin).
      apply elem_of_cons in Hin as [?|Hin]; [done|].
      by apply list_elem_of_singleton in Hin.
    + done.
  - assert (get_prop data "action" ≠ JStr "skipWaiting") as Hnskip.
    { intros Heq. apply message_test in Heq. congruence. }
    destruct (truthy data && equals_string (get_prop data "action") "scheduleNotification")
      eqn:Hsched.
    + apply message_test in Hsched.
      split; [done|]. split; [|split].
      * split; [|done]. intros Hin.
        apply elem_of_cons in Hin as [?|Hin]; [done|].
        by apply list_elem_of_singleton in Hin.
      * split; [done|]. intros _. eexists _, _, _. right. by left.
      * done.
    + assert (get_prop data "action" ≠ JStr "scheduleNotification") as Hnsched.
      { intros Heq. apply message_test in Heq. congruence. }
      split; [done|]. split; [|split].
      * split; [|done]. intros Hin. by apply list_elem_of_singleton in Hin.
      * split; [|done]. intros (delay & title & options & Hin).
        by apply list_elem_of_singleton in Hin.
      * done.
Qed.

(** X22. From message to click: the notification a [scheduleNotification]
    message sets a timer for takes its delay, title and body from the
    message, offers the actions watch and dismiss, and carries no URL; a
    click on its watch action while no window of the application is open
    therefore opens [/?action=watch]. *)
Theorem scheduled_notification_watch_opens_root
    (rt : Runtime) (cs : CacheStorage) (msg delay title : JsVal)
    (options : gmap string JsVal) :
  MSetTimeout delay title (JObj options) ∈ message_handler msg →
  filter (at_origin rt) (rt_windows rt) = [] →
  let event := {| ne_action := "watch"; ne_data := notification_data options |} in
  delay = get_prop msg "delay" ∧
  title = get_prop msg "title" ∧
  options !! "body" = Some (get_prop msg "body") ∧
  options !! "actions" = Some scheduled_actions ∧
  w_trace (run (notificationclick_handler rt event) cs).2 =
    (click_prefix event ++ [EOpenWindow (JStr "/?action=watch")])%list.
Proof.
  intros Hin Hnone event. unfold message_handler in Hin.
  apply elem_of_cons in Hin as [?|Hin]; [done|].
  destruct (truthy msg && equals_string (get_prop msg "action") "skipWaiting").
  { by apply list_elem_of_singleton in Hin. }
  destruct (truthy msg && equals_string (get_prop msg "action") "scheduleNotification");
    [|by apply elem_of_nil in Hin].
  apply list_elem_of_singleton in Hin. injection Hin as -> -> ->.
  split; [done|]. split; [done|]. split; [reflexivity|]. split; [reflexivity|].
  subst event. rewrite notificationclick_handler_run. cbv zeta.
  rewrite decide_True by done. rewrite Hnone. reflexivity.
Qed.

(** ** sync *)

Section SyncRun.

Variable rt : Runtime.
Variable Response_json : Response → outcome JsVal.
Variable JSON_stringify : JsVal → string.
Variable worker_dir : string.

(** The whole run of the sync handler. *)
Lemma sync_handler_run tag (cs : CacheStorage) :
  run (sync_handler rt Response_json JSON_stringify worker_dir tag) cs =
  let world cs' t :=
    {| w_caches := cs';
       w_trace := ELog "🔄 Background sync triggered:" tag :: t |} in
  if decide (tag = "background-sync-matches") then
    match rt_network rt matches_endpoint with
    | None =>
        (Fulfilled tt,
         world cs [ENetFetch matches_endpoint;
                   EError "❌ Background sync failed:" "TypeError: Failed to fetch"])
    | Some response =>
        match Response_json response with
        | Rejected e =>
            (Fulfilled tt,
             world cs [ENetFetch matches_endpoint;
                       EError "❌ Background sync failed:" e])
        | Fulfilled data =>
            (Fulfilled tt,
             world (open_put CACHE_NAME (matches_key worker_dir)
                      (new_Response (JSON_stringify data)) cs)
                   [ENetFetch matches_endpoint;
                    ELog "📊 Background sync completed, matches updated" ""])
        end
    end
  else (Fulfilled tt, world cs []).
Proof.
  unfold sync_handler, run. cbv zeta.
  case_decide; [|done].
  unfold fetch. async_unfold. simpl.
  destruct (rt_network rt matches_endpoint) as [response|]; simpl; [|done].
  destruct (Response_json response) as [data|e]; simpl; [|done].
  unfold open_put, opened. by destruct (bucket CACHE_NAME cs).
Qed.

End SyncRun.

(** X23. The promise the sync handler hands to [waitUntil] never rejects,
    whatever the tag, the network and the body of the answer are; for a tag
    other than [background-sync-matches] the handler asks nothing of the
    network and stores nothing. *)
Theorem sync_never_rejects
    (rt : Runtime) (Response_json : Response → outcome JsVal)
    (JSON_stringify : JsVal → string) (worker_dir tag : string) (cs : CacheStorage) :
  let result :=
    run (sync_handler rt Response_json JSON_stringify worker_dir tag) cs in
  event_succeeded result.1 = true ∧
  (tag ≠ "background-sync-matches" →
   w_caches result.2 = cs ∧
   w_trace result.2 = [ELog "🔄 Background sync triggered:" tag]).
Proof.
  intros result. subst result. rewrite sync_handler_run. cbv zeta.
  case_decide.
  - split; [|done].
    destruct (rt_network rt matches_endpoint) as [response|]; [|done].
    by destruct (Response_json response).
  - done.
Qed.

(** X24. A sync that fails, because the network does not answer or because
    the answer does not decode, leaves the cache storage as it was and logs
    the failure. *)
Theorem sync_failure_stores_nothing
    (rt : Runtime) (Response_json : Response → outcome JsVal)
    (JSON_stringify : JsVal → string) (worker_dir : string) (cs : CacheStorage) :
  (rt_network rt matches_endpoint = None ∨
   ∃ response e, rt_network rt matches_endpoint = Some response ∧
                 Response_json response = Rejected e) →
  let result :=
    run (sync_handler rt Response_json JSON_stringify worker_dir
           "background-sync-matches") cs in
  w_caches result.2 = cs ∧
  ∃ e, w_trace result.2 =
         [ELog "🔄 Background sync triggered:" "background-sync-matches";
          ENetFetch matches_endpoint;
          EError "❌ Background sync failed:" e].
Proof.
  intros Hfail result. subst result. rewrite sync_handler_run. cbv zeta.
  rewrite decide_True by done.
  destruct Hfail as [->|(response & e & -> & ->)]; split; by eexists.
Qed.

(** X25. A sync whose answer decodes stores, under the key [matches-data] of
    the worker's directory in the current bucket, a fresh response of status
    200 whose body is the re-encoded data, and touches no other entry; once
    the current bucket is the first bucket, a static request for that URL is
    then answered with it without any call to the network. *)
Theorem sync_stores_matches_data
    (rt rt' : Runtime) (Response_json : Response → outcome JsVal)
    (JSON_stringify : JsVal → string) (worker_dir : string) (cs : CacheStorage)
    (response : Response) (data : JsVal) :
  rt_network rt matches_endpoint = Some response →
  Response_json response = Fulfilled data →
  let synced :=
    w_caches (run (sync_handler rt Response_json JSON_stringify worker_dir
                     "background-sync-matches") cs).2 in
  let stored :=
    {| resp_status := 200; resp_type := default_type;
       resp_body := JSON_stringify data; resp_redirected := false |} in
  let key := (worker_dir ++ "matches-data")%string in
  stored_at CACHE_NAME key synced = Some stored ∧
  (∀ name key', name ≠ CACHE_NAME ∨ key' ≠ key →
     stored_at name key' synced = stored_at name key' cs) ∧
  (current_first cs →
   ∀ request, req_url request = key → is_dynamic request = false →
     run (fetch_handler rt' request) synced =
     (Fulfilled (Some stored), {| w_caches := synced; w_trace := [] |})).
Proof.
  intros Hnet Hjson synced stored key. subst synced.
  rewrite sync_handler_run. cbv zeta. rewrite decide_True by done.
  rewrite Hnet, Hjson. cbn [snd w_caches].
  assert (resp_status stored ≠ 206) as Hfull by done.
  destruct (open_put_lookup cs CACHE_NAME key stored Hfull) as (c & Hb & Hc).
  split; [|split].
  - unfold stored_at. change (matches_key worker_dir) with key.
    change (new_Response (JSON_stringify data)) with stored.
    rewrite Hb. exact Hc.
  - intros name key' Hother. by apply stored_at_open_put_ne.
  - intros Hfirst request Hurl Hstatic.
    apply fetch_handler_static_hit; [done|]. rewrite Hurl.
    apply (storage_match_current_first _ c); [|exact Hb|exact Hc].
    by apply current_first_open_put.
Qed.

(** ** Instances of the further properties *)

Lemma online_manifest_fetched : manifest_fetched (sample_runtime online []).
Proof. intros u _. eexists. split; reflexivity. Qed.

Lemma index_in_manifest : "/index.html" ∈ urlsToCache.
Proof. apply elem_of_cons. right. apply elem_of_cons. by left. Qed.

Lemma install_stores_every_manifest_entry_witness :
  stored_at CACHE_NAME "https://cricstreamzone.example/index.html"
    (w_caches (run (install_handler (sample_runtime online [])) []).2) =
  Some (page "https://cricstreamzone.example/index.html").
Proof.
  destruct (install_stores_every_manifest_entry (sample_runtime online []) []
              online_manifest_fetched) as (_ & _ & Hall).
  destruct (Hall "/index.html" index_in_manifest) as [_ Hstored].
  exact Hstored.
Defined.

Lemma install_failure_is_atomic_witness :
  let rt := sample_runtime (all_but "https://cricstreamzone.example/manifest.json") [] in
  stored_at CACHE_NAME "https://cricstreamzone.example/index.html"
    (w_caches (run (install_handler rt) []).2) = None.
Proof.
  intros rt.
  destruct (install_failure_is_atomic rt [] "/manifest.json") as (Hsame & _).
  - apply elem_of_cons. right. apply elem_of_cons. right. apply elem_of_cons. by left.
  - left. reflexivity.
  - rewrite Hsame. reflexivity.
Defined.

Lemma install_only_adds_witness :
  let cs := [("runtime", {["k" := page "v"]})] in
  stored_at "runtime" "k"
    (w_caches (run (install_handler (sample_runtime online [])) cs).2) =
  Some (page "v").
Proof.
  intros cs.
  rewrite (install_only_adds (sample_runtime online []) cs "runtime" "k").
  - reflexivity.
  - left. discriminate.
Defined.

Lemma manifest_served_from_cache_after_activation_witness :
  let rt := sample_runtime online [] in
  let installed := w_caches (run (install_handler rt) stale_bucket).2 in
  let activated := w_caches (run activate_handler installed).2 in
  (run (fetch_handler (sample_runtime offline []) index_request) activated).1 =
  Fulfilled (Some (page "https://cricstreamzone.example/index.html")).
Proof.
  intros rt installed activated.
  destruct (manifest_served_from_cache_after_activation rt (sample_runtime offline [])
              stale_bucket index_request "/index.html")
    as (_ & Hserved & _).
  - exact online_manifest_fetched.
  - exact index_in_manifest.
  - reflexivity.
  - reflexivity.
  - exact Hserved.
Defined.

Lemma static_miss_offline_fails_witness :
  respondWith (run (fetch_handler (sample_runtime offline []) index_request) []).1 =
  NetworkError.
Proof.
  destruct (static_miss_offline_fails (sample_runtime offline []) index_request [])
    as (Hreply & _); [reflexivity..|].
  exact Hreply.
Defined.


Lemma static_miss_then_hit_witness :
  let rt := sample_runtime (only (req_url index_request) (page "<html>")) [] in
  let first := run (fetch_handler rt index_request) [] in
  let second :=
    run (fetch_handler (sample_runtime offline []) index_request) (w_caches first.2) in
  respondWith second.1 = Served (page "<html>") ∧ w_trace second.2 = [].
Proof.
  intros rt first second.
  destruct (static_miss_then_hit rt (sample_runtime offline []) index_request []
              (page "<html>")) as (_ & Hsecond & Htrace & _); [reflexivity..|].
  split; [exact Hsecond|exact Htrace].
Defined.

Lemma push_display_failure_is_logged_witness :
  let result := run (push_handler (hostile_runtime []) (Some text_payload)) [] in
  event_succeeded result.1 = true ∧
  last (w_trace result.2) =
    Some (EError "❌ Failed to show notification:" "TypeError: No notification permission").
Proof.
  intros result.
  destruct (push_display_failure_is_logged (hostile_runtime []) (Some text_payload) [])
    as (title & options & _ & Hok & _ & Htrace).
  - eexists. reflexivity.
  - split; [exact Hok|]. subst result. rewrite Htrace. reflexivity.
Defined.

Lemma push_fixed_options_witness :
  let rt := sample_runtime offline [] in
  let nd := notificationData_of (Some overriding_payload) in
  push_options rt nd "cricket-match-general" !! "actions" = Some push_actions ∧
  push_options rt nd "cricket-match-general" !! "requireInteraction" = Some (JBool true).
Proof.
  intros rt nd.
  destruct (push_fixed_options rt (Some overriding_payload) [] (JStr "Final")
              (push_options rt nd "cricket-match-general"))
    as (Hactions & _ & Hsticky & _).
  - reflexivity.
  - split; [exact Hactions|exact Hsticky].
Defined.

Lemma push_unconvertible_match_id_throws_witness :
  shown_notifications
    (w_trace (run (push_handler (sample_runtime offline [])
                     (Some unconvertible_payload)) []).2) = [].
Proof.
  destruct (push_unconvertible_match_id_throws (sample_runtime offline []) []
              unconvertible_payload
              (JObj (list_to_map [
                 ("matchId", JObj (list_to_map [("toString", JNum 1)]))]))
              (list_to_map [("toString", JNum 1)]))
    as (_ & _ & Hshown).
  - reflexivity.
  - reflexivity.
  - eexists. reflexivity.
  - exact Hshown.
Defined.

Lemma pushed_notification_watch_opens_payload_url_witness :
  let rt := sample_runtime offline [] in
  let click nd :=
    {| ne_action := "watch";
       ne_data := notification_data (push_options rt nd "cricket-match-general") |} in
  let event := click (notificationData_of (Some overriding_payload)) in
  let event' := click (notificationData_of (Some unconvertible_url_payload)) in
  w_trace (run (notificationclick_handler rt event) []).2 =
    (click_prefix event ++ [EOpenWindow (JStr "/live?action=watch")])%list ∧
  event_succeeded (run (notificationclick_handler rt event') []).1 = false ∧
  w_trace (run (notificationclick_handler rt event') []).2 = click_prefix event'.
Proof.
  intros rt click event event'. split.
  - assert (pmd_json overriding_payload =
            Some (JObj (list_to_map [
                    ("title", JStr "Final");
                    ("url", JStr "/live");
                    ("actions", JArr []);
                    ("requireInteraction", JBool false);
                    ("tag", JStr "mine")]))) as Hjson by reflexivity.
    assert (shown_notifications
              (w_trace (run (push_handler rt (Some overriding_payload)) []).2) =
            [(JStr "Final",
              JObj (push_options rt (notificationData_of (Some overriding_payload))
                      "cricket-match-general"))]) as Hshown by reflexivity.
    assert (filter (at_origin rt) (rt_windows rt) = []) as Hnone by reflexivity.
    exact (pushed_notification_watch_opens_payload_url rt rt [] []
             overriding_payload _ _ _ Hjson Hshown Hnone).
  - assert (pmd_json unconvertible_url_payload =
            Some (JObj (list_to_map [
                    ("url", JObj (list_to_map [("toString", JNum 1)]))])))
      as Hjson by reflexivity.
    assert (shown_notifications
              (w_trace (run (push_handler rt (Some unconvertible_url_payload)) []).2) =
            [(JStr "CricStreamZone",
              JObj (push_options rt
                      (notificationData_of (Some unconvertible_url_payload))
                      "cricket-match-general"))]) as Hshown by reflexivity.
    assert (filter (at_origin rt) (rt_windows rt) = []) as Hnone by reflexivity.
    exact (pushed_notification_watch_opens_payload_url rt rt [] []
             unconvertible_url_payload _ _ _ Hjson Hshown Hnone).
Defined.

Lemma default_click_focuses_controlled_or_opens_witness :
  let rt := sample_runtime offline [home_window 1 false; home_window 2 true] in
  let event := {| ne_action := ""; ne_data := JNull |} in
  w_trace (run (notificationclick_handler rt event) []).2 =
  (click_prefix event ++ [EFocus 2])%list.
Proof.
  intros rt event.
  destruct (default_click_focuses_controlled_or_opens rt event [])
    as [Hfocus _]; [discriminate..|].
  destruct (Hfocus (home_window 2 true) []) as [_ Htrace]; [reflexivity|].
  exact Htrace.
Defined.

Lemma watch_click_ignores_focus_failure_witness :
  let rt := hostile_runtime [home_window 1 false] in
  let event := {| ne_action := "watch"; ne_data := JNull |} in
  rt_focus rt 1 = Rejected "InvalidAccessError" ∧
  (run (notificationclick_handler rt event) []).1 = Fulfilled tt.
Proof.
  intros rt event. split; [reflexivity|].
  destruct (watch_click_ignores_focus_failure rt JNull [] (home_window 1 false))
    as [Hok _]; [reflexivity|].
  exact Hok.
Defined.

Lemma scheduled_notification_watch_opens_root_witness :
  let options :=
    scheduled_options (JStr "The toss is in ten minutes") JNull in
  let event := {| ne_action := "watch"; ne_data := notification_data options |} in
  w_trace (run (notificationclick_handler (sample_runtime offline []) event) []).2 =
  (click_prefix event ++ [EOpenWindow (JStr "/?action=watch")])%list.
Proof.
  intros options event.
  destruct (scheduled_notification_watch_opens_root (sample_runtime offline []) []
              schedule_message (JNum 600000) (JStr "Toss") options)
    as (_ & _ & _ & _ & Htrace).
  - apply elem_of_cons. right. apply list_elem_of_singleton. reflexivity.
  - reflexivity.
  - exact Htrace.
Defined.

Lemma sync_failure_stores_nothing_witness :
  let cs := [(CACHE_NAME, {["k" := page "v"]})] in
  w_caches
    (run (sync_handler (sample_runtime offline []) sample_json sample_stringify
            sample_dir "background-sync-matches") cs).2 = cs.
Proof.
  intros cs.
  destruct (sync_failure_stores_nothing (sample_runtime offline []) sample_json
              sample_stringify sample_dir cs) as [Hsame _].
  - left. reflexivity.
  - exact Hsame.
Defined.

Lemma sync_stores_matches_data_witness :
  let rt := sample_runtime (only matches_endpoint (page "[]")) [] in
  stored_at CACHE_NAME "https://cricstreamzone.example/matches-data"
    (w_caches
       (run (sync_handler rt sample_json sample_stringify sample_dir
               "background-sync-matches") []).2) =
  Some {| resp_status := 200; resp_type := default_type; resp_body := "[]";
          resp_redirected := false |}.
Proof.
  intros rt.
  destruct (sync_stores_matches_data rt rt sample_json sample_stringify sample_dir []
              (page "[]") (JArr [])) as (Hstored & _); [reflexivity..|].
  exact Hstored.
Defined.
